(** * Financial simulator: embedding of the simulation core

    Source files: [financial_simulation_lib.py] (engine, sampler, historical
    windows, IRR and milestone statistics) and [app.py]
    ([get_contribution_for_month]).

    Numbers.  Python floats are modelled by exact rationals [Q]; equality of
    amounts is [Qeq] (written [==]).  Python ints (years, month numbers) are
    [Z].  A Python exception is [None] in the option monad.  The quarterly
    rebalancing block, whose tests and quotients are sensitive to rounding,
    is also written over an arbitrary arithmetic ([Block]) and read on
    binary64 floats ([Binary64]). *)

From Stdlib Require Import ZArith QArith Qabs Qminmax Lqa Lia List.
From Stdlib Require Floats.PrimFloat.
From stdpp Require Import base option list gmap sorting.

Local Open Scope Q_scope.

(** ** Python helpers *)

(** [range(a, b)] *)
Definition py_range (a b : Z) : list Z := seqZ a (b - a).

(** [l[-1]] on a list the caller has just built (never empty there). *)
Definition py_last (l : list Q) : Q := default 0 (last l).

(** [for x in l: s = body(s, x)] where the body may raise. *)
Fixpoint for_each {S A : Type} (body : S -> A -> option S) (l : list A) (s : S)
  : option S :=
  match l with
  | [] => Some s
  | x :: l' => match body s x with
               | Some s' => for_each body l' s'
               | None => None
               end
  end.

(** [a > b] on floats. *)
Definition Qgtb (a b : Q) : bool := negb (Qle_bool a b).

(** [a / b] on floats where no guard keeps the divisor from zero: a zero
    divisor has no quotient (Python floats raise [ZeroDivisionError], numpy
    floats give [inf] or [nan]); [None] stands for both. *)
Definition py_div (a b : Q) : option Q :=
  if Qeq_bool b 0 then None else Some (a / b).

(** A numpy float: a finite value or [nan]. *)
Inductive npfloat : Type :=
| Fin (q : Q)
| NaN.

Definition np_isnan (x : npfloat) : bool :=
  match x with NaN => true | Fin _ => false end.

Definition np_sub (x y : npfloat) : npfloat :=
  match x, y with
  | Fin a, Fin b => Fin (a - b)
  | _, _ => NaN
  end.

Definition np_mul (x y : npfloat) : npfloat :=
  match x, y with
  | Fin a, Fin b => Fin (a * b)
  | _, _ => NaN
  end.

(** [count / n] for a numpy integer [count] and a Python int [n]: true
    division; [0 / 0] is [nan] (numpy warns, it does not raise).  The only
    zero divisor that occurs below comes with a zero count. *)
Definition np_true_divide (count n : Z) : npfloat :=
  if (n =? 0)%Z then NaN else Fin (inject_Z count / inject_Z n).

(** ** Data model *)

(** [market_returns]: asset -> year -> percent. *)
Record AnnualReturnSeries : Type := {
  mr_SP500 : gmap Z Q;
  mr_NASDAQ100 : gmap Z Q;
  mr_TBILL_3M : gmap Z Q
}.

(** One 15-year window; [None] is the source's [None] marker of an asset
    with a gap. *)
Record HistoricalSequence : Type := {
  start_year : Z;
  end_year : Z;
  seq_SP500 : option (list Q);
  seq_NASDAQ100 : option (list Q);
  seq_TBILL_3M : option (list Q)
}.

(** [{'contribution': ..., 'start_month': ...}] *)
Record ContributionPeriod : Type := {
  contribution : Q;
  start_month : Z
}.

(** [investment_mix] / [target_mix] / [current_mix] / [current_allocation] /
    [adjustments]: a dict over the four asset keys. *)
Record InvestmentMix : Type := {
  mix_SP500 : Q;
  mix_NASDAQ : Q;
  mix_TBill : Q;
  mix_HYSA : Q
}.

(** [investment_breakdown] / one entry of [result_dict]: a dict of parallel
    lists indexed by month. *)
Record Breakdown : Type := {
  Month_Index : list Z;
  SP500 : list Q;
  NASDAQ100 : list Q;
  TBILL_3M : list Q;
  HYSA : list Q;
  Emergency_fund : list Q;
  Baseline : list Q
}.

(** [simulation_results] (the name and the mix it echoes are left out). *)
Record SimulationResults : Type := {
  iteration : list Z;
  sequence_index : list Z;
  sequence_start_year : list Z;
  sequence_end_year : list Z;
  result_dict : list Breakdown
}.

(** ** The historical return table of the source *)

Definition mr_SP500_table : list (Z * Q) :=
  [
    (1926%Z, 1162 # 100); (1927%Z, 3749 # 100); (1928%Z, 4361 # 100); (1929%Z, (-842) # 100);
    (1930%Z, (-2490) # 100); (1931%Z, (-4334) # 100); (1932%Z, (-819) # 100); (1933%Z, 5399 # 100);
    (1934%Z, (-144) # 100); (1935%Z, 4767 # 100); (1936%Z, 3392 # 100); (1937%Z, (-3503) # 100);
    (1938%Z, 3112 # 100); (1939%Z, (-41) # 100); (1940%Z, (-978) # 100); (1941%Z, (-1159) # 100);
    (1942%Z, 2034 # 100); (1943%Z, 2590 # 100); (1944%Z, 1975 # 100); (1945%Z, 3644 # 100);
    (1946%Z, (-807) # 100); (1947%Z, 571 # 100); (1948%Z, 550 # 100); (1949%Z, 1879 # 100);
    (1950%Z, 3171 # 100); (1951%Z, 2402 # 100); (1952%Z, 1837 # 100); (1953%Z, (-99) # 100);
    (1954%Z, 5262 # 100); (1955%Z, 3156 # 100); (1956%Z, 656 # 100); (1957%Z, (-1078) # 100);
    (1958%Z, 4336 # 100); (1959%Z, 1196 # 100); (1960%Z, 47 # 100); (1961%Z, 2689 # 100);
    (1962%Z, (-873) # 100); (1963%Z, 2280 # 100); (1964%Z, 1648 # 100); (1965%Z, 1245 # 100);
    (1966%Z, (-1006) # 100); (1967%Z, 2398 # 100); (1968%Z, 1106 # 100); (1969%Z, (-850) # 100);
    (1970%Z, 401 # 100); (1971%Z, 1431 # 100); (1972%Z, 1898 # 100); (1973%Z, (-1466) # 100);
    (1974%Z, (-2647) # 100); (1975%Z, 3720 # 100); (1976%Z, 2384 # 100); (1977%Z, (-718) # 100);
    (1978%Z, 656 # 100); (1979%Z, 1844 # 100); (1980%Z, 3242 # 100); (1981%Z, (-491) # 100);
    (1982%Z, 2155 # 100); (1983%Z, 2256 # 100); (1984%Z, 627 # 100); (1985%Z, 3173 # 100);
    (1986%Z, 1867 # 100); (1987%Z, 525 # 100); (1988%Z, 1661 # 100); (1989%Z, 3169 # 100);
    (1990%Z, (-310) # 100); (1991%Z, 3047 # 100); (1992%Z, 762 # 100); (1993%Z, 1008 # 100);
    (1994%Z, 132 # 100); (1995%Z, 3758 # 100); (1996%Z, 2296 # 100); (1997%Z, 3336 # 100);
    (1998%Z, 2858 # 100); (1999%Z, 2104 # 100); (2000%Z, (-910) # 100); (2001%Z, (-1189) # 100);
    (2002%Z, (-2210) # 100); (2003%Z, 2868 # 100); (2004%Z, 1088 # 100); (2005%Z, 491 # 100);
    (2006%Z, 1579 # 100); (2007%Z, 549 # 100); (2008%Z, (-3700) # 100); (2009%Z, 2646 # 100);
    (2010%Z, 1506 # 100); (2011%Z, 211 # 100); (2012%Z, 1600 # 100); (2013%Z, 3239 # 100);
    (2014%Z, 1369 # 100); (2015%Z, 138 # 100); (2016%Z, 1196 # 100); (2017%Z, 2183 # 100);
    (2018%Z, (-438) # 100); (2019%Z, 3149 # 100); (2020%Z, 1840 # 100); (2021%Z, 2871 # 100);
    (2022%Z, (-1811) # 100); (2023%Z, 2629 # 100); (2024%Z, 2502 # 100)
  ]%Q.

Definition mr_NASDAQ100_table : list (Z * Q) :=
  [
    (1986%Z, 689 # 100); (1987%Z, 1050 # 100); (1988%Z, 1354 # 100); (1989%Z, 2617 # 100);
    (1990%Z, (-1041) # 100); (1991%Z, 6499 # 100); (1992%Z, 887 # 100); (1993%Z, 1058 # 100);
    (1994%Z, 150 # 100); (1995%Z, 4254 # 100); (1996%Z, 4254 # 100); (1997%Z, 2063 # 100);
    (1998%Z, 8531 # 100); (1999%Z, 10195 # 100); (2000%Z, (-3684) # 100); (2001%Z, (-3265) # 100);
    (2002%Z, (-3758) # 100); (2003%Z, 4912 # 100); (2004%Z, 1044 # 100); (2005%Z, 149 # 100);
    (2006%Z, 679 # 100); (2007%Z, 1867 # 100); (2008%Z, (-4189) # 100); (2009%Z, 5354 # 100);
    (2010%Z, 1922 # 100); (2011%Z, 270 # 100); (2012%Z, 1682 # 100); (2013%Z, 3499 # 100);
    (2014%Z, 1794 # 100); (2015%Z, 843 # 100); (2016%Z, 589 # 100); (2017%Z, 3152 # 100);
    (2018%Z, (-104) # 100); (2019%Z, 3796 # 100); (2020%Z, 4758 # 100); (2021%Z, 2663 # 100);
    (2022%Z, (-3297) # 100); (2023%Z, 5381 # 100); (2024%Z, 2488 # 100)
  ]%Q.

Definition mr_TBILL_3M_table : list (Z * Q) :=
  [
    (1928%Z, 308 # 100); (1929%Z, 316 # 100); (1930%Z, 455 # 100); (1931%Z, 231 # 100);
    (1932%Z, 107 # 100); (1933%Z, 96 # 100); (1934%Z, 28 # 100); (1935%Z, 17 # 100);
    (1936%Z, 17 # 100); (1937%Z, 28 # 100); (1938%Z, 7 # 100); (1939%Z, 5 # 100);
    (1940%Z, 4 # 100); (1941%Z, 13 # 100); (1942%Z, 34 # 100); (1943%Z, 38 # 100);
    (1944%Z, 38 # 100); (1945%Z, 38 # 100); (1946%Z, 38 # 100); (1947%Z, 60 # 100);
    (1948%Z, 105 # 100); (1949%Z, 112 # 100); (1950%Z, 120 # 100); (1951%Z, 152 # 100);
    (1952%Z, 172 # 100); (1953%Z, 189 # 100); (1954%Z, 94 # 100); (1955%Z, 172 # 100);
    (1956%Z, 262 # 100); (1957%Z, 322 # 100); (1958%Z, 177 # 100); (1959%Z, 339 # 100);
    (1960%Z, 287 # 100); (1961%Z, 235 # 100); (1962%Z, 277 # 100); (1963%Z, 316 # 100);
    (1964%Z, 355 # 100); (1965%Z, 395 # 100); (1966%Z, 486 # 100); (1967%Z, 429 # 100);
    (1968%Z, 534 # 100); (1969%Z, 667 # 100); (1970%Z, 639 # 100); (1971%Z, 433 # 100);
    (1972%Z, 406 # 100); (1973%Z, 704 # 100); (1974%Z, 785 # 100); (1975%Z, 579 # 100);
    (1976%Z, 498 # 100); (1977%Z, 526 # 100); (1978%Z, 718 # 100); (1979%Z, 1005 # 100);
    (1980%Z, 1139 # 100); (1981%Z, 1404 # 100); (1982%Z, 1060 # 100); (1983%Z, 862 # 100);
    (1984%Z, 954 # 100); (1985%Z, 747 # 100); (1986%Z, 597 # 100); (1987%Z, 578 # 100);
    (1988%Z, 667 # 100); (1989%Z, 811 # 100); (1990%Z, 750 # 100); (1991%Z, 538 # 100);
    (1992%Z, 343 # 100); (1993%Z, 300 # 100); (1994%Z, 425 # 100); (1995%Z, 549 # 100);
    (1996%Z, 501 # 100); (1997%Z, 506 # 100); (1998%Z, 478 # 100); (1999%Z, 464 # 100);
    (2000%Z, 582 # 100); (2001%Z, 340 # 100); (2002%Z, 161 # 100); (2003%Z, 101 # 100);
    (2004%Z, 137 # 100); (2005%Z, 315 # 100); (2006%Z, 473 # 100); (2007%Z, 436 # 100);
    (2008%Z, 137 # 100); (2009%Z, 15 # 100); (2010%Z, 14 # 100); (2011%Z, 5 # 100);
    (2012%Z, 9 # 100); (2013%Z, 6 # 100); (2014%Z, 3 # 100); (2015%Z, 5 # 100);
    (2016%Z, 32 # 100); (2017%Z, 93 # 100); (2018%Z, 194 # 100); (2019%Z, 206 # 100);
    (2020%Z, 35 # 100); (2021%Z, 5 # 100); (2022%Z, 202 # 100); (2023%Z, 507 # 100);
    (2024%Z, 497 # 100)
  ]%Q.

Definition market_returns : AnnualReturnSeries := {|
  mr_SP500 := list_to_map mr_SP500_table;
  mr_NASDAQ100 := list_to_map mr_NASDAQ100_table;
  mr_TBILL_3M := list_to_map mr_TBILL_3M_table
|}.

(** ** ContributionSchedule lookup ([app.py]) *)

(** The [for period in contribution_periods] loop with its [break]. *)
Fixpoint contribution_loop (month : Z) (periods : list ContributionPeriod)
    (applicable_contribution : Q) : Q :=
  match periods with
  | [] => applicable_contribution
  | period :: rest =>
      if (month >=? start_month period)%Z
      then contribution_loop month rest (contribution period)
      else applicable_contribution
  end.

(** [contribution_periods[0]] raises [IndexError] on an empty schedule. *)
Definition get_contribution_for_month (month : Z)
    (contribution_periods : list ContributionPeriod) : option Q :=
  match contribution_periods with
  | [] => None
  | first :: _ =>
      Some (contribution_loop month contribution_periods (contribution first))
  end.

(** ** HistoricalSequenceLibrary *)

(** [sorted(d.keys())] *)
Definition sorted_keys (d : gmap Z Q) : list Z :=
  merge_sort Z.le (map fst (map_to_list d)).

(** [all(year in years for year in range(start_year, end_year + 1))] *)
Definition has_all (years : list Z) (start_year end_year : Z) : bool :=
  forallb (fun year => bool_decide (year ∈ years))
          (py_range start_year (end_year + 1)).

(** [[d[year] for year in range(start_year, end_year + 1)]], evaluated only
    under [has_all], where every key is present. *)
Definition window (d : gmap Z Q) (start_year end_year : Z) : list Q :=
  map (fun year => default 0 (d !! year)) (py_range start_year (end_year + 1)).

Definition make_sequence (mr : AnnualReturnSeries)
    (sp500_years nasdaq_years tbill_years : list Z) (start_year : Z)
  : HistoricalSequence :=
  let end_year := (start_year + 14)%Z in
  let has_sp500 := has_all sp500_years start_year end_year in
  let has_nasdaq := has_all nasdaq_years start_year end_year in
  let has_tbill := has_all tbill_years start_year end_year in
  {| start_year := start_year;
     end_year := end_year;
     seq_SP500 :=
       if has_sp500 then Some (window (mr_SP500 mr) start_year end_year)
       else None;
     seq_NASDAQ100 :=
       if has_nasdaq then Some (window (mr_NASDAQ100 mr) start_year end_year)
       else None;
     seq_TBILL_3M :=
       if has_tbill then Some (window (mr_TBILL_3M mr) start_year end_year)
       else None |}.

(** [years[0]] and [years[-1]] raise [IndexError] on an asset without data. *)
Definition get_15_year_sequences (mr : AnnualReturnSeries)
  : option (list HistoricalSequence) :=
  let sp500_years := sorted_keys (mr_SP500 mr) in
  let nasdaq_years := sorted_keys (mr_NASDAQ100 mr) in
  let tbill_years := sorted_keys (mr_TBILL_3M mr) in
  sp500_first ← head sp500_years;
  nasdaq_first ← head nasdaq_years;
  tbill_first ← head tbill_years;
  sp500_last ← last sp500_years;
  nasdaq_last ← last nasdaq_years;
  tbill_last ← last tbill_years;
  let earliest_year := Z.min (Z.min sp500_first nasdaq_first) tbill_first in
  let latest_year := Z.max (Z.max sp500_last nasdaq_last) tbill_last in
  Some (map (make_sequence mr sp500_years nasdaq_years tbill_years)
            (py_range earliest_year (latest_year - 14))).

(** The caller's filter ([app.py]): keep the windows without a [None]. *)
Definition is_complete (hs : HistoricalSequence) : bool :=
  match seq_SP500 hs, seq_NASDAQ100 hs, seq_TBILL_3M hs with
  | Some _, Some _, Some _ => true
  | _, _, _ => false
  end.


(** ** Stand-ins for the library primitives, used to run the model on
    concrete inputs *)

(** First-order stand-in for the float power [x ** y]. *)
Definition pow_linear (x y : Q) : Q := 1 + y * (x - 1).

(** A random state that is a counter; its draws cycle through -1, 0, 1. *)
Definition counter_normal (n : nat) : Q * nat :=
  (inject_Z (Z.of_nat (n mod 3)) - 1, S n).


(** A solver that accepts its starting point when the residual is zero there
    and gives up otherwise. *)
Definition newton_at_start (func : Q -> Q) (x0 : Q) (fprime : Q -> Q)
    (maxiter : Z) : option npfloat :=
  if Qeq_bool (func x0) 0 then Some (Fin x0) else None.

(** numpy before 1.22: percentile and mean of an empty array are [nan]. *)
Definition percentile_nan (a : list Q) (q : Q) : option npfloat :=
  match a with [] => Some NaN | x :: _ => Some (Fin x) end.

(** numpy from 1.22 on: percentile of an empty array raises [IndexError]. *)
Definition percentile_raises (a : list Q) (q : Q) : option npfloat :=
  match a with [] => None | x :: _ => Some (Fin x) end.

Definition mean_nan (a : list Q) : option npfloat :=
  match a with
  | [] => Some NaN
  | _ => Some (Fin (fold_left Qplus a 0 / inject_Z (Z.of_nat (length a))))
  end.

(** [l[i]] with Python's negative indices; [None] is [IndexError]. *)
Definition py_index {A : Type} (l : list A) (i : Z) : option A :=
  if (0 <=? i)%Z then l !! Z.to_nat i
  else if (Z.of_nat (length l) + i <? 0)%Z then None
  else l !! Z.to_nat (Z.of_nat (length l) + i).

(** ** Operations on a four-asset dict *)

Definition mix_map (f : Q -> Q) (m : InvestmentMix) : InvestmentMix :=
  {| mix_SP500 := f (mix_SP500 m);
     mix_NASDAQ := f (mix_NASDAQ m);
     mix_TBill := f (mix_TBill m);
     mix_HYSA := f (mix_HYSA m) |}.

Definition mix_map2 (f : Q -> Q -> Q) (a b : InvestmentMix) : InvestmentMix :=
  {| mix_SP500 := f (mix_SP500 a) (mix_SP500 b);
     mix_NASDAQ := f (mix_NASDAQ a) (mix_NASDAQ b);
     mix_TBill := f (mix_TBill a) (mix_TBill b);
     mix_HYSA := f (mix_HYSA a) (mix_HYSA b) |}.

(** [sum(m.values())]: Python's [sum] starts from 0 and adds in key order. *)
Definition mix_sum (m : InvestmentMix) : Q :=
  0 + mix_SP500 m + mix_NASDAQ m + mix_TBill m + mix_HYSA m.

(** Componentwise equality of amounts. *)
Definition mix_eq (a b : InvestmentMix) : Prop :=
  mix_SP500 a == mix_SP500 b /\ mix_NASDAQ a == mix_NASDAQ b /\
  mix_TBill a == mix_TBill b /\ mix_HYSA a == mix_HYSA b.

(** ** RebalancingPolicy ([run_investment_simulation], the quarterly block) *)

Definition total_value (ib : Breakdown) : Q :=
  py_last (SP500 ib) + py_last (NASDAQ100 ib) + py_last (TBILL_3M ib)
  + py_last (HYSA ib).

Definition current_allocation (ib : Breakdown) : InvestmentMix :=
  {| mix_SP500 := py_last (SP500 ib) / total_value ib;
     mix_NASDAQ := py_last (NASDAQ100 ib) / total_value ib;
     mix_TBill := py_last (TBILL_3M ib) / total_value ib;
     mix_HYSA := py_last (HYSA ib) / total_value ib |}.

(** The [for asset ...: if diff > rebalancing_threshold: ... break] loop. *)
Definition needs_rebalancing (target_mix allocation : InvestmentMix)
    (rebalancing_threshold : Q) : bool :=
  Qgtb (Qabs (mix_SP500 allocation - mix_SP500 target_mix)) rebalancing_threshold
  || Qgtb (Qabs (mix_NASDAQ allocation - mix_NASDAQ target_mix)) rebalancing_threshold
  || Qgtb (Qabs (mix_TBill allocation - mix_TBill target_mix)) rebalancing_threshold
  || Qgtb (Qabs (mix_HYSA allocation - mix_HYSA target_mix)) rebalancing_threshold.

(** [adjustments[asset] = -(current_allocation[asset] - target_mix[asset])] *)
Definition adjustments (target_mix allocation : InvestmentMix) : InvestmentMix :=
  mix_map2 (fun cur tgt => - (cur - tgt)) allocation target_mix.

(** [sum(max(0, adj) for adj in adjustments.values())] *)
Definition total_adjustment (adj : InvestmentMix) : Q :=
  mix_sum (mix_map (Qmax 0) adj).

(** The new [current_mix] before it is renormalised; the source's two
    branches are the same expression. *)
Definition adjusted_mix (target_mix adj : InvestmentMix) : InvestmentMix :=
  mix_map2 (fun tgt a =>
              if Qgtb a 0
              then tgt + (a / total_adjustment adj) * (1 # 2)
              else tgt + (a / total_adjustment adj) * (1 # 2))
           target_mix adj.

(** [total_mix = sum(current_mix.values()); if total_mix > 0: divide]. *)
Definition renormalise (m : InvestmentMix) : InvestmentMix :=
  let total_mix := mix_sum m in
  if Qgtb total_mix 0 then mix_map (fun x => x / total_mix) m else m.

(** The body of the quarterly [if]. *)
Definition rebalance (target_mix : InvestmentMix) (rebalancing_threshold : Q)
    (ib : Breakdown) (current_mix : InvestmentMix) : InvestmentMix :=
  if Qgtb (total_value ib) 0 then
    let allocation := current_allocation ib in
    if needs_rebalancing target_mix allocation rebalancing_threshold then
      let adj := adjustments target_mix allocation in
      if Qgtb (total_adjustment adj) 0
      then renormalise (adjusted_mix target_mix adj)
      else current_mix
    else current_mix
  else current_mix.

(** [enable_rebalancing and current_month > 0 and current_month % 3 == 0] *)
Definition is_checkpoint (enable_rebalancing : bool) (current_month : Z) : bool :=
  enable_rebalancing && (current_month >? 0)%Z && (current_month mod 3 =? 0)%Z.

(** The mix that splits the contribution of the month the state is at. *)
Definition quarterly_check (target_mix : InvestmentMix)
    (enable_rebalancing : bool) (rebalancing_threshold : Q)
    (ib : Breakdown) (current_mix : InvestmentMix) : InvestmentMix :=
  let current_month := default 0%Z (last (Month_Index ib)) in
  if is_checkpoint enable_rebalancing current_month
  then rebalance target_mix rebalancing_threshold ib current_mix
  else current_mix.

(** The conjunction of guards under which [current_mix] is reassigned. *)
Definition adjustment_triggered (target_mix : InvestmentMix)
    (enable_rebalancing : bool) (rebalancing_threshold : Q)
    (ib : Breakdown) : bool :=
  is_checkpoint enable_rebalancing (default 0%Z (last (Month_Index ib)))
  && Qgtb (total_value ib) 0
  && needs_rebalancing target_mix (current_allocation ib) rebalancing_threshold
  && Qgtb (total_adjustment (adjustments target_mix (current_allocation ib))) 0.

(** ** SimulationEngine: one month *)

(** The body of [for month_idx in range(12)], given the month's three
    sampled returns. *)
Definition month_step (target_mix : InvestmentMix) (enable_rebalancing : bool)
    (rebalancing_threshold : Q) (contribution_function : Z -> Q)
    (HYSA_monthly_returns : Q)
    (st : Breakdown * InvestmentMix) (r : Q * Q * Q)
  : Breakdown * InvestmentMix :=
  let '(ib, current_mix) := st in
  let '(r_sp500, r_nasdaq, r_tbill) := r in
  let current_month := default 0%Z (last (Month_Index ib)) in
  let current_mix :=
    quarterly_check target_mix enable_rebalancing rebalancing_threshold
                    ib current_mix in
  let contribution := contribution_function current_month in
  let sp500_contribution := contribution * mix_SP500 current_mix in
  let nasdaq_contribution := contribution * mix_NASDAQ current_mix in
  let tbill_contribution := contribution * mix_TBill current_mix in
  let hysa_contribution := contribution * mix_HYSA current_mix in
  let new_sp500 := (py_last (SP500 ib) + sp500_contribution) * (1 + r_sp500) in
  let new_nasdaq := (py_last (NASDAQ100 ib) + nasdaq_contribution) * (1 + r_nasdaq) in
  let new_tbill := (py_last (TBILL_3M ib) + tbill_contribution) * (1 + r_tbill) in
  let new_hysa := (py_last (HYSA ib) + hysa_contribution) * (1 + HYSA_monthly_returns) in
  let new_baseline := (py_last (Baseline ib) + contribution) * (1 + HYSA_monthly_returns) in
  ({| Month_Index := Month_Index ib ++ [(current_month + 1)%Z];
      SP500 := SP500 ib ++ [new_sp500];
      NASDAQ100 := NASDAQ100 ib ++ [new_nasdaq];
      TBILL_3M := TBILL_3M ib ++ [new_tbill];
      HYSA := HYSA ib ++ [new_hysa];
      Emergency_fund :=
        Emergency_fund ib
        ++ [py_last (Emergency_fund ib) * (1 + HYSA_monthly_returns)];
      Baseline := Baseline ib ++ [new_baseline] |},
   current_mix).

(** The month-0 [investment_breakdown]. *)
Definition initial_breakdown (investment_mix : InvestmentMix)
    (investment_start emergency_fund_start : Q) : Breakdown :=
  {| Month_Index := [0%Z];
     SP500 := [investment_start * mix_SP500 investment_mix];
     NASDAQ100 := [investment_start * mix_NASDAQ investment_mix];
     TBILL_3M := [investment_start * mix_TBill investment_mix];
     HYSA := [investment_start * mix_HYSA investment_mix];
     Emergency_fund := [emergency_fund_start];
     Baseline := [investment_start + emergency_fund_start] |}.

(** ** Reading a finished trajectory *)

(** The trajectory as it stood when month [k - 1] had just been appended. *)
Definition truncate (k : nat) (ib : Breakdown) : Breakdown :=
  {| Month_Index := take k (Month_Index ib);
     SP500 := take k (SP500 ib);
     NASDAQ100 := take k (NASDAQ100 ib);
     TBILL_3M := take k (TBILL_3M ib);
     HYSA := take k (HYSA ib);
     Emergency_fund := take k (Emergency_fund ib);
     Baseline := take k (Baseline ib) |}.

(** The active contribution-allocation mix of month [m] of a trajectory: the
    target mix passed through the quarterly check of every month up to [m],
    each check reading the balances of its own month. *)
Fixpoint active_mix (target_mix : InvestmentMix) (enable_rebalancing : bool)
    (rebalancing_threshold : Q) (ib : Breakdown) (m : nat) : InvestmentMix :=
  quarterly_check target_mix enable_rebalancing rebalancing_threshold
    (truncate (S m) ib)
    (match m with
     | O => target_mix
     | S m' => active_mix target_mix enable_rebalancing rebalancing_threshold ib m'
     end).

(** The mix in force just before the check of month [m]. *)
Definition mix_before (target_mix : InvestmentMix) (enable_rebalancing : bool)
    (rebalancing_threshold : Q) (ib : Breakdown) (m : nat) : InvestmentMix :=
  match m with
  | O => target_mix
  | S m' => active_mix target_mix enable_rebalancing rebalancing_threshold ib m'
  end.

(** Entry [m] of a series (0 past its end). *)
Definition at_month (l : list Q) (m : nat) : Q := nth m l 0.

(** Pointwise equality of amounts along two trajectories. *)
Definition series_eq (l1 l2 : list Q) : Prop := Forall2 Qeq l1 l2.

Definition breakdown_eq (a b : Breakdown) : Prop :=
  Month_Index a = Month_Index b /\
  series_eq (SP500 a) (SP500 b) /\
  series_eq (NASDAQ100 a) (NASDAQ100 b) /\
  series_eq (TBILL_3M a) (TBILL_3M b) /\
  series_eq (HYSA a) (HYSA b) /\
  series_eq (Emergency_fund a) (Emergency_fund b) /\
  series_eq (Baseline a) (Baseline b).

(** ** The monthly returns of a trajectory *)

(** The three return vectors of year [m / 12], read at month [m mod 12]. *)
Definition month_returns (ds : list (list Q * list Q * list Q)) (m : nat)
  : Q * Q * Q :=
  let '(sp, nq, tb) := nth (m / 12) ds ([], [], []) in
  (nth (m mod 12) sp 0, nth (m mod 12) nq 0, nth (m mod 12) tb 0).

(** [result_dict] entries a caller can take apart: no series is shorter than
    [Month_Index], and month 0 is there. *)
Definition well_formed (rd : Breakdown) : Prop :=
  (0 < length (Month_Index rd))%nat /\
  (length (Month_Index rd) <= length (SP500 rd))%nat /\
  (length (Month_Index rd) <= length (NASDAQ100 rd))%nat /\
  (length (Month_Index rd) <= length (TBILL_3M rd))%nat /\
  (length (Month_Index rd) <= length (HYSA rd))%nat /\
  (length (Month_Index rd) <= length (Emergency_fund rd))%nat /\
  (length (Month_Index rd) <= length (Baseline rd))%nat.

(** Schedules are compared by start month. *)
Definition by_start (p q : ContributionPeriod) : Prop :=
  (start_month p <= start_month q)%Z.

(** A window the engine accepts: three series of 15 annual returns. *)
Definition complete15 (hs : HistoricalSequence) : Prop :=
  exists sp nq tb,
    seq_SP500 hs = Some sp /\ seq_NASDAQ100 hs = Some nq /\
    seq_TBILL_3M hs = Some tb /\
    length sp = 15%nat /\ length nq = 15%nat /\ length tb = 15%nat.

(** [{'irr_returns': ..., 'baseline_irr_returns': ...}] *)
Record IrrData : Type := {
  irr_returns : list Q;
  baseline_irr_returns : list Q
}.

(** The dict returned by [calculate_milestone_statistics]. *)
Record MilestoneStats : Type := {
  p25 : npfloat;
  p50 : npfloat;
  p75 : npfloat;
  avg_baseline : npfloat;
  beat_baseline_pct : npfloat;
  median_gain : npfloat
}.

(** The implied contribution of month [k], back-solved from two consecutive
    Baseline balances. *)
Definition implied_contribution_at (rate : Q) (rd : Breakdown) (k : Z) : Q :=
  at_month (Baseline rd) (Z.to_nat k) / (1 + rate)
  - at_month (Baseline rd) (Z.to_nat (k - 1)).

(** Some asset's |current fraction - target fraction| exceeds the threshold. *)
Definition drift_exceeds (target_mix allocation : InvestmentMix)
    (rebalancing_threshold : Q) : Prop :=
  rebalancing_threshold < Qabs (mix_SP500 allocation - mix_SP500 target_mix) \/
  rebalancing_threshold < Qabs (mix_NASDAQ allocation - mix_NASDAQ target_mix) \/
  rebalancing_threshold < Qabs (mix_TBill allocation - mix_TBill target_mix) \/
  rebalancing_threshold < Qabs (mix_HYSA allocation - mix_HYSA target_mix).

(** [month] is a quarterly checkpoint: a positive multiple of 3. *)
Definition quarterly (month : Z) : Prop :=
  (0 < month)%Z /\ (month mod 3 = 0)%Z.

(** The twelve return triples of one year, in [month_idx] order. *)
Definition year_returns (d : list Q * list Q * list Q) : list (Q * Q * Q) :=
  let '(sp, nq, tb) := d in
  map (fun month_idx => (nth month_idx sp 0, nth month_idx nq 0,
                         nth month_idx tb 0))
      (seq 0 12).

(** The month-[m] transition of a trajectory, in the spec's words: each
    volatile balance becomes (previous + contribution x active mix fraction)
    x (1 + that month's sampled return); the cash-equivalent balance the same
    at the cash rate; Baseline takes the full contribution at the cash rate;
    the emergency fund compounds at the cash rate with no contribution. *)
Definition transition_holds (target_mix : InvestmentMix)
    (enable_rebalancing : bool) (rebalancing_threshold : Q)
    (contribution_function : Z -> Q) (cash_rate : Q)
    (ib : Breakdown) (m : nat) (r : Q * Q * Q) : Prop :=
  let mix := active_mix target_mix enable_rebalancing rebalancing_threshold
                        ib m in
  let c := contribution_function (Z.of_nat m) in
  nth m (Month_Index ib) 0%Z = Z.of_nat m /\
  at_month (SP500 ib) (S m)
  = (at_month (SP500 ib) m + c * mix_SP500 mix) * (1 + fst (fst r)) /\
  at_month (NASDAQ100 ib) (S m)
  = (at_month (NASDAQ100 ib) m + c * mix_NASDAQ mix) * (1 + snd (fst r)) /\
  at_month (TBILL_3M ib) (S m)
  = (at_month (TBILL_3M ib) m + c * mix_TBill mix) * (1 + snd r) /\
  at_month (HYSA ib) (S m)
  = (at_month (HYSA ib) m + c * mix_HYSA mix) * (1 + cash_rate) /\
  at_month (Baseline ib) (S m)
  = (at_month (Baseline ib) m + c) * (1 + cash_rate) /\
  at_month (Emergency_fund ib) (S m)
  = at_month (Emergency_fund ib) m * (1 + cash_rate).

(** All seven series of a trajectory have [k] entries. *)
Definition all_lengths (k : nat) (ib : Breakdown) : Prop :=
  length (Month_Index ib) = k /\ length (SP500 ib) = k /\
  length (NASDAQ100 ib) = k /\ length (TBILL_3M ib) = k /\
  length (HYSA ib) = k /\ length (Emergency_fund ib) = k /\
  length (Baseline ib) = k.

(** A trajectory with one more month appended to every series. *)
Definition append_month (ib : Breakdown) (month : Z)
    (sp nq tb hy em bl : Q) : Breakdown :=
  {| Month_Index := Month_Index ib ++ [month];
     SP500 := SP500 ib ++ [sp];
     NASDAQ100 := NASDAQ100 ib ++ [nq];
     TBILL_3M := TBILL_3M ib ++ [tb];
     HYSA := HYSA ib ++ [hy];
     Emergency_fund := Emergency_fund ib ++ [em];
     Baseline := Baseline ib ++ [bl] |}.

(** What holds of the engine's state once the months with returns [rs] have
    been run: every series has one entry per month, [Month_Index] counts the
    months, the current mix is the one in force before the next check, and
    every month run so far made its transition. *)
Definition trajectory_inv (target_mix : InvestmentMix)
    (enable_rebalancing : bool) (rebalancing_threshold : Q)
    (contribution_function : Z -> Q) (cash_rate : Q)
    (rs : list (Q * Q * Q)) (st : Breakdown * InvestmentMix) : Prop :=
  all_lengths (S (length rs)) (fst st) /\
  (forall m, (m <= length rs)%nat ->
             nth m (Month_Index (fst st)) 0%Z = Z.of_nat m) /\
  snd st = mix_before target_mix enable_rebalancing rebalancing_threshold
                      (fst st) (length rs) /\
  (forall m, (m < length rs)%nat ->
             transition_holds target_mix enable_rebalancing
               rebalancing_threshold contribution_function cash_rate
               (fst st) m (nth m rs (0, 0, 0))).

(** ** Comparing two runs *)

(** Two return triples, equal as amounts. *)
Definition returns_eq (r1 r2 : Q * Q * Q) : Prop :=
  fst (fst r1) == fst (fst r2) /\ snd (fst r1) == snd (fst r2) /\
  snd r1 == snd r2.

(** The three return vectors of a year, equal entry by entry. *)
Definition year_eq (d1 d2 : list Q * list Q * list Q) : Prop :=
  series_eq (fst (fst d1)) (fst (fst d2)) /\
  series_eq (snd (fst d1)) (snd (fst d2)) /\
  series_eq (snd d1) (snd d2).

(** The engine's state: trajectory and current mix. *)
Definition state_eq (s1 s2 : Breakdown * InvestmentMix) : Prop :=
  breakdown_eq (fst s1) (fst s2) /\ mix_eq (snd s1) (snd s2).

(** Two result sets: the same metadata columns and, run by run, the same
    trajectory. *)
Definition results_eq (a b : SimulationResults) : Prop :=
  iteration a = iteration b /\
  sequence_index a = sequence_index b /\
  sequence_start_year a = sequence_start_year b /\
  sequence_end_year a = sequence_end_year b /\
  Forall2 breakdown_eq (result_dict a) (result_dict b).

(** ** Inputs for running the model *)

Definition example_mix : InvestmentMix :=
  {| mix_SP500 := 25 # 100; mix_NASDAQ := 25 # 100;
     mix_TBill := 25 # 100; mix_HYSA := 25 # 100 |}.

(** The window 2000..2014 of the source's table. *)
Definition example_window : HistoricalSequence :=
  make_sequence market_returns
    (sorted_keys (mr_SP500 market_returns))
    (sorted_keys (mr_NASDAQ100 market_returns))
    (sorted_keys (mr_TBILL_3M market_returns)) 2000.

(** A trajectory cut after month 3, with S&P 500 ahead of the rest. *)
Definition example_run : Breakdown :=
  {| Month_Index := [0; 1; 2; 3]%Z;
     SP500 := [250; 300; 350; 400];
     NASDAQ100 := [250; 250; 250; 200];
     TBILL_3M := [250; 250; 250; 200];
     HYSA := [250; 250; 250; 200];
     Emergency_fund := [500; 505; 510; 515];
     Baseline := [1500; 1616; 1733; 1851] |}.

Definition empty_results : SimulationResults :=
  {| iteration := []; sequence_index := []; sequence_start_year := [];
     sequence_end_year := []; result_dict := [] |}.

Definition example_results : SimulationResults :=
  {| iteration := [0%Z]; sequence_index := [0%Z];
     sequence_start_year := [2000%Z]; sequence_end_year := [2014%Z];
     result_dict := [example_run] |}.

(** A one-month run whose portfolio cash flows (100 in, 175 out after 15
    years) have net present value 0 at 5% under [pow_linear]. *)
Definition converging_run : Breakdown :=
  {| Month_Index := [0; 1]%Z;
     SP500 := [100; 175];
     NASDAQ100 := [0; 0];
     TBILL_3M := [0; 0];
     HYSA := [0; 0];
     Emergency_fund := [0; 0];
     Baseline := [100; 100] |}.

(** Two runs: the solver finds the IRR of the first only. *)
Definition mixed_results : SimulationResults :=
  {| iteration := [0; 1]%Z; sequence_index := [0; 0]%Z;
     sequence_start_year := [2000; 2000]%Z;
     sequence_end_year := [2014; 2014]%Z;
     result_dict := [converging_run; example_run] |}.

Definition example_periods : list ContributionPeriod :=
  [ {| contribution := 3200; start_month := 0 |};
    {| contribution := 4000; start_month := 20 |};
    {| contribution := 1000; start_month := 40 |} ].

(** ** [extract_simulation_data] *)

(** The dict returned by [extract_simulation_data]. *)
Record SimulationData : Type := {
  final_values : list Q;
  all_timeseries : list (list Q);
  baselines : list Q;
  sequence_indices : list Z
}.

(** The body of [for j in range(len(result_dict['Month_Index']))]. *)
Definition timeseries_point (rd : Breakdown) (timeseries : list Q) (j : Z)
  : option (list Q) :=
  sp ← py_index (SP500 rd) j;
  nq ← py_index (NASDAQ100 rd) j;
  tb ← py_index (TBILL_3M rd) j;
  hy ← py_index (HYSA rd) j;
  em ← py_index (Emergency_fund rd) j;
  let total := sp + nq + tb + hy + em in
  Some (timeseries ++ [total]).

(** The body of [for i, result_dict in enumerate(...)]. *)
Definition extract_run (simulation_results : SimulationResults)
    (acc : SimulationData) (p : Z * Breakdown) : option SimulationData :=
  let '(i, rd) := p in
  sp ← py_index (SP500 rd) (-1);
  nq ← py_index (NASDAQ100 rd) (-1);
  tb ← py_index (TBILL_3M rd) (-1);
  hy ← py_index (HYSA rd) (-1);
  em ← py_index (Emergency_fund rd) (-1);
  let final_total := sp + nq + tb + hy + em in
  bl ← py_index (Baseline rd) (-1);
  si ← py_index (sequence_index simulation_results) i;
  timeseries ← for_each (timeseries_point rd)
                  (py_range 0 (Z.of_nat (length (Month_Index rd)))) [];
  Some {| final_values := final_values acc ++ [final_total];
          all_timeseries := all_timeseries acc ++ [timeseries];
          baselines := baselines acc ++ [bl];
          sequence_indices := sequence_indices acc ++ [si] |}.

Definition extract_simulation_data (simulation_results : SimulationResults)
  : option SimulationData :=
  for_each (extract_run simulation_results)
           (imap (fun i rd => (Z.of_nat i, rd)) (result_dict simulation_results))
           {| final_values := []; all_timeseries := []; baselines := [];
              sequence_indices := [] |}.

(** The five-balance total of a run at month [m]. *)
Definition total_at (rd : Breakdown) (m : nat) : Q :=
  at_month (SP500 rd) m + at_month (NASDAQ100 rd) m + at_month (TBILL_3M rd) m
  + at_month (HYSA rd) m + at_month (Emergency_fund rd) m.

(** What [extract_simulation_data] indexes in a run: the five balance series
    are not empty and reach as far as [Month_Index], and [Baseline] is not
    empty. *)
Definition extractable (rd : Breakdown) : Prop :=
  let n := length (Month_Index rd) in
  (0 < length (SP500 rd) /\ n <= length (SP500 rd))%nat /\
  (0 < length (NASDAQ100 rd) /\ n <= length (NASDAQ100 rd))%nat /\
  (0 < length (TBILL_3M rd) /\ n <= length (TBILL_3M rd))%nat /\
  (0 < length (HYSA rd) /\ n <= length (HYSA rd))%nat /\
  (0 < length (Emergency_fund rd) /\ n <= length (Emergency_fund rd))%nat /\
  (0 < length (Baseline rd))%nat.

(** ** The app's glue ([app.py]) *)

(** [sorted(contribution_periods, key=lambda x: x['start_month'])]: Python's
    sort is stable, so a period goes after the ones with the same key. *)
Fixpoint insert_period (p : ContributionPeriod)
    (sorted : list ContributionPeriod) : list ContributionPeriod :=
  match sorted with
  | [] => [p]
  | q :: rest =>
      if (start_month p <? start_month q)%Z then p :: q :: rest
      else q :: insert_period p rest
  end.

Definition sort_periods (contribution_periods : list ContributionPeriod)
  : list ContributionPeriod :=
  fold_left (fun sorted p => insert_period p sorted) contribution_periods [].

(** [def contribution_func(month)], the closure over the sorted schedule. *)
Definition contribution_func (contribution_periods : list ContributionPeriod)
    (month : Z) : option Q :=
  get_contribution_for_month month (sort_periods contribution_periods).

(** [[seq for seq in sequences if seq['SP500'] is not None and ...]] *)
Definition complete_sequences_of (sequences : list HistoricalSequence)
  : list HistoricalSequence :=
  List.filter is_complete sequences.

(** The [investment_mix] dict built from a portfolio's integer percentages. *)
Definition mix_of_percent (sp500 nasdaq tbill hysa : Z) : InvestmentMix :=
  {| mix_SP500 := inject_Z sp500 / 100; mix_NASDAQ := inject_Z nasdaq / 100;
     mix_TBill := inject_Z tbill / 100; mix_HYSA := inject_Z hysa / 100 |}.

(** [total != 100] is what stops a run. *)
Definition allocation_valid (sp500 nasdaq tbill hysa : Z) : bool :=
  (sp500 + nasdaq + tbill + hysa =? 100)%Z.

(** Some asset of the table has a value for [year]. *)
Definition has_data (mr : AnnualReturnSeries) (year : Z) : Prop :=
  is_Some (mr_SP500 mr !! year) \/ is_Some (mr_NASDAQ100 mr !! year) \/
  is_Some (mr_TBILL_3M mr !! year).

(** ** The quarterly block over any arithmetic

    The block of [run_investment_simulation] that reassigns [current_mix],
    written once over the operations it uses on amounts, so that it can be
    read on exact rationals and on binary64 floats alike. *)

Module Block.

(** A dict over the four asset keys. *)
Record Shares (A : Type) : Type := {
  s_SP500 : A;
  s_NASDAQ : A;
  s_TBill : A;
  s_HYSA : A
}.
Arguments s_SP500 {A} _.
Arguments s_NASDAQ {A} _.
Arguments s_TBill {A} _.
Arguments s_HYSA {A} _.

(** The constants and operations of the block: [0], [0.5], [+], [-], [*],
    [/], unary minus, [abs] and [>]. *)
Class NumOps (A : Type) : Type := {
  num_zero : A;
  num_half : A;
  num_add : A -> A -> A;
  num_sub : A -> A -> A;
  num_mul : A -> A -> A;
  num_div : A -> A -> A;
  num_neg : A -> A;
  num_abs : A -> A;
  num_gt : A -> A -> bool
}.

Section Over.
Context {A : Type} {ops : NumOps A}.

Definition shares_map (f : A -> A) (m : Shares A) : Shares A :=
  {| s_SP500 := f (s_SP500 m); s_NASDAQ := f (s_NASDAQ m);
     s_TBill := f (s_TBill m); s_HYSA := f (s_HYSA m) |}.

Definition shares_map2 (f : A -> A -> A) (a b : Shares A) : Shares A :=
  {| s_SP500 := f (s_SP500 a) (s_SP500 b);
     s_NASDAQ := f (s_NASDAQ a) (s_NASDAQ b);
     s_TBill := f (s_TBill a) (s_TBill b);
     s_HYSA := f (s_HYSA a) (s_HYSA b) |}.

(** [sum(m.values())]: starts from 0 and adds in key order. *)
Definition shares_sum (m : Shares A) : A :=
  num_add (num_add (num_add (num_add num_zero (s_SP500 m)) (s_NASDAQ m))
                   (s_TBill m))
          (s_HYSA m).

(** [max(0, adj)]: Python keeps [0] unless [adj > 0]. *)
Definition py_max0 (adj : A) : A :=
  if num_gt adj num_zero then adj else num_zero.

(** The four [[-1]] balances, added left to right. *)
Definition total_value (balances : Shares A) : A :=
  num_add (num_add (num_add (s_SP500 balances) (s_NASDAQ balances))
                   (s_TBill balances))
          (s_HYSA balances).

Definition current_allocation (balances : Shares A) : Shares A :=
  shares_map (fun x => num_div x (total_value balances)) balances.

Definition needs_rebalancing (target_mix allocation : Shares A)
    (rebalancing_threshold : A) : bool :=
  num_gt (num_abs (num_sub (s_SP500 allocation) (s_SP500 target_mix)))
         rebalancing_threshold
  || num_gt (num_abs (num_sub (s_NASDAQ allocation) (s_NASDAQ target_mix)))
            rebalancing_threshold
  || num_gt (num_abs (num_sub (s_TBill allocation) (s_TBill target_mix)))
            rebalancing_threshold
  || num_gt (num_abs (num_sub (s_HYSA allocation) (s_HYSA target_mix)))
            rebalancing_threshold.

Definition adjustments (target_mix allocation : Shares A) : Shares A :=
  shares_map2 (fun cur tgt => num_neg (num_sub cur tgt)) allocation target_mix.

Definition total_adjustment (adj : Shares A) : A :=
  shares_sum (shares_map py_max0 adj).

Definition adjusted_mix (target_mix adj : Shares A) : Shares A :=
  shares_map2
    (fun tgt a =>
       if num_gt a num_zero
       then num_add tgt (num_mul (num_div a (total_adjustment adj)) num_half)
       else num_add tgt (num_mul (num_div a (total_adjustment adj)) num_half))
    target_mix adj.

Definition renormalise (m : Shares A) : Shares A :=
  let total_mix := shares_sum m in
  if num_gt total_mix num_zero
  then shares_map (fun x => num_div x total_mix) m
  else m.

Definition rebalance (target_mix : Shares A) (rebalancing_threshold : A)
    (balances current_mix : Shares A) : Shares A :=
  if num_gt (total_value balances) num_zero then
    let allocation := current_allocation balances in
    if needs_rebalancing target_mix allocation rebalancing_threshold then
      let adj := adjustments target_mix allocation in
      if num_gt (total_adjustment adj) num_zero
      then renormalise (adjusted_mix target_mix adj)
      else current_mix
    else current_mix
  else current_mix.

Definition quarterly_check (target_mix : Shares A) (enable_rebalancing : bool)
    (rebalancing_threshold : A) (current_month : Z)
    (balances current_mix : Shares A) : Shares A :=
  if is_checkpoint enable_rebalancing current_month
  then rebalance target_mix rebalancing_threshold balances current_mix
  else current_mix.

(** The conjunction of guards under which [current_mix] is reassigned. *)
Definition adjustment_triggered (target_mix : Shares A)
    (enable_rebalancing : bool) (rebalancing_threshold : A)
    (current_month : Z) (balances : Shares A) : bool :=
  is_checkpoint enable_rebalancing current_month
  && num_gt (total_value balances) num_zero
  && needs_rebalancing target_mix (current_allocation balances)
       rebalancing_threshold
  && num_gt (total_adjustment
               (adjustments target_mix (current_allocation balances)))
            num_zero.

(** Some asset's |current fraction - target fraction| exceeds the
    threshold, as the block computes and compares it. *)
Definition drift_exceeds (target_mix allocation : Shares A)
    (rebalancing_threshold : A) : Prop :=
  num_gt (num_abs (num_sub (s_SP500 allocation) (s_SP500 target_mix)))
         rebalancing_threshold = true \/
  num_gt (num_abs (num_sub (s_NASDAQ allocation) (s_NASDAQ target_mix)))
         rebalancing_threshold = true \/
  num_gt (num_abs (num_sub (s_TBill allocation) (s_TBill target_mix)))
         rebalancing_threshold = true \/
  num_gt (num_abs (num_sub (s_HYSA allocation) (s_HYSA target_mix)))
         rebalancing_threshold = true.

End Over.

End Block.

(** Exact rationals. *)
#[global] Instance Q_ops : Block.NumOps Q := {|
  Block.num_zero := 0;
  Block.num_half := 1 # 2;
  Block.num_add := Qplus;
  Block.num_sub := Qminus;
  Block.num_mul := Qmult;
  Block.num_div := Qdiv;
  Block.num_neg := Qopp;
  Block.num_abs := Qabs;
  Block.num_gt := Qgtb
|}.

(** The engine's dicts and balances, as the block takes them. *)
Definition to_shares (m : InvestmentMix) : Block.Shares Q :=
  {| Block.s_SP500 := mix_SP500 m; Block.s_NASDAQ := mix_NASDAQ m;
     Block.s_TBill := mix_TBill m; Block.s_HYSA := mix_HYSA m |}.

Definition last_balances (ib : Breakdown) : Block.Shares Q :=
  {| Block.s_SP500 := py_last (SP500 ib);
     Block.s_NASDAQ := py_last (NASDAQ100 ib);
     Block.s_TBill := py_last (TBILL_3M ib);
     Block.s_HYSA := py_last (HYSA ib) |}.

(** Binary64 floats, the arithmetic the source runs on. *)
Module Binary64.
Import PrimFloat.

#[global] Instance ops : Block.NumOps float := {|
  Block.num_zero := 0%float;
  Block.num_half := 0.5%float;
  Block.num_add := add;
  Block.num_sub := sub;
  Block.num_mul := mul;
  Block.num_div := div;
  Block.num_neg := opp;
  Block.num_abs := abs;
  Block.num_gt := fun a b => ltb b a
|}.

(** [x / 100], the way the app turns a slider's percentage into a share. *)
Definition percent (x : float) : float := (x / 100)%float.


(** The threshold 0 of the claim, and the app's default of 5%. *)
Definition threshold_zero : float := 0%float.
Definition threshold_default : float := percent 5.

(** A 25/25/25/25 target; each share is exactly 0.25. *)
Definition quarter_target : Block.Shares float :=
  {| Block.s_SP500 := percent 25; Block.s_NASDAQ := percent 25;
     Block.s_TBill := percent 25; Block.s_HYSA := percent 25 |}.

(** Balances one unit in the last place away from equal. *)
Definition near_target_balances : Block.Shares float :=
  {| Block.s_SP500 := (1 + 0x1p-52)%float; Block.s_NASDAQ := 1%float;
     Block.s_TBill := 1%float; Block.s_HYSA := 1%float |}.

(** The fraction 0.25 + 2^-54. *)
Definition above_quarter : float := (0.25 + 0x1p-54)%float.

(** Balances with the two equity funds at twice the other two. *)
Definition equity_heavy_balances : Block.Shares float :=
  {| Block.s_SP500 := 200%float; Block.s_NASDAQ := 200%float;
     Block.s_TBill := 100%float; Block.s_HYSA := 100%float |}.

End Binary64.

Section Engine.

(** The float power [x ** y]. *)
Variable pow : Q -> Q -> Q.

(** numpy's global random state, and one standard-normal draw from it. *)
Variable RandomState : Type.
Variable standard_normal : RandomState -> Q * RandomState.

(** [scipy.optimize.newton(func, x0, fprime=..., maxiter=...)]: [Some x]
    when it returns [x], [None] when it raises. *)
Variable newton : (Q -> Q) -> Q -> (Q -> Q) -> Z -> option npfloat.

(** [np.percentile(a, q)] and [np.mean(a)]; [None] when they raise. *)
Variable np_percentile : list Q -> Q -> option npfloat.
Variable np_mean : list Q -> option npfloat.

(** *** ReturnSampler *)

(** [np.random.normal(loc, scale)]: [loc + scale * z] for a standard-normal
    draw [z]; a negative scale raises [ValueError]. *)
Definition np_random_normal (loc scale : Q) (g : RandomState)
  : option (Q * RandomState) :=
  if Qgtb 0 scale then None
  else let '(z, g') := standard_normal g in Some (loc + scale * z, g').

(** The [for i in range(0, 12)] loop. *)
Fixpoint monthly_return_loop (n : nat) (avg_monthly_return std : Q)
    (actual_monthly_return : list Q) (g : RandomState)
  : option (list Q * RandomState) :=
  match n with
  | O => Some (actual_monthly_return, g)
  | S n' =>
      match np_random_normal 0 std g with
      | Some (noise, g') =>
          monthly_return_loop n' avg_monthly_return std
            (actual_monthly_return ++ [avg_monthly_return + noise]) g'
      | None => None
      end
  end.

Definition calculate_monthly_return (yearly_return std : Q) (g : RandomState)
  : option (list Q * RandomState) :=
  let avg_monthly_return := pow (1 + yearly_return) (1 / 12) - 1 in
  monthly_return_loop 12 avg_monthly_return std [] g.

(** *** SimulationEngine: years, runs, the batch *)

(** The three [calculate_monthly_return] calls that open a year. *)
Definition sample_year (SP500_std NASDAQ_std T_Bills_std : Q)
    (hs : HistoricalSequence) (g : RandomState) (year_idx : nat)
  : option ((list Q * list Q * list Q) * RandomState) :=
  sp ← seq_SP500 hs;
  y_sp ← sp !! year_idx;
  '(sp500_monthly_returns, g1) ← calculate_monthly_return (y_sp / 100) SP500_std g;
  nq ← seq_NASDAQ100 hs;
  y_nq ← nq !! year_idx;
  '(nasdaq_monthly_returns, g2) ← calculate_monthly_return (y_nq / 100) NASDAQ_std g1;
  tb ← seq_TBILL_3M hs;
  y_tb ← tb !! year_idx;
  '(TBILL_3M_monthly_returns, g3) ← calculate_monthly_return (y_tb / 100) T_Bills_std g2;
  Some ((sp500_monthly_returns, nasdaq_monthly_returns,
         TBILL_3M_monthly_returns), g3).

(** The body of [for year_idx in range(15)]. *)
Definition year_body (target_mix : InvestmentMix) (enable_rebalancing : bool)
    (rebalancing_threshold : Q) (contribution_function : Z -> Q)
    (HYSA_monthly_returns SP500_std NASDAQ_std T_Bills_std : Q)
    (hs : HistoricalSequence)
    (s : (Breakdown * InvestmentMix) * RandomState) (year_idx : nat)
  : option ((Breakdown * InvestmentMix) * RandomState) :=
  let '(st, g) := s in
  '(rets, g') ← sample_year SP500_std NASDAQ_std T_Bills_std hs g year_idx;
  let '(sp500_monthly_returns, nasdaq_monthly_returns,
        TBILL_3M_monthly_returns) := rets in
  Some (fold_left
          (fun st month_idx =>
             month_step target_mix enable_rebalancing rebalancing_threshold
               contribution_function HYSA_monthly_returns st
               (nth month_idx sp500_monthly_returns 0,
                nth month_idx nasdaq_monthly_returns 0,
                nth month_idx TBILL_3M_monthly_returns 0))
          (seq 0 12) st,
        g').

(** One (sequence, iteration) pair: the trajectory and the random state
    left behind. *)
Definition run_pair (investment_mix : InvestmentMix)
    (investment_start emergency_fund_start : Q)
    (enable_rebalancing : bool) (rebalancing_threshold : Q)
    (contribution_function : Z -> Q)
    (HYSA_monthly_returns SP500_std NASDAQ_std T_Bills_std : Q)
    (hs : HistoricalSequence) (g : RandomState)
  : option (Breakdown * RandomState) :=
  '(st, g') ← for_each
      (year_body investment_mix enable_rebalancing rebalancing_threshold
         contribution_function HYSA_monthly_returns
         SP500_std NASDAQ_std T_Bills_std hs)
      (seq 0 15)
      ((initial_breakdown investment_mix investment_start
          emergency_fund_start, investment_mix), g);
  Some (fst st, g').

(** The draws of a whole run, year by year, replayed on their own. *)
Fixpoint sample_years (SP500_std NASDAQ_std T_Bills_std : Q)
    (hs : HistoricalSequence) (years : list nat) (g : RandomState)
  : option (list (list Q * list Q * list Q) * RandomState) :=
  match years with
  | [] => Some ([], g)
  | year_idx :: rest =>
      '(d, g1) ← sample_year SP500_std NASDAQ_std T_Bills_std hs g year_idx;
      '(ds, g2) ← sample_years SP500_std NASDAQ_std T_Bills_std hs rest g1;
      Some (d :: ds, g2)
  end.

Definition run_investment_simulation (investment_mix : InvestmentMix)
    (investment_start emergency_fund_start : Q)
    (complete_sequences : list HistoricalSequence) (total_iterations : Z)
    (hysa_apy SP500_std NASDAQ_std T_Bills_std : Q)
    (contribution_function : Z -> Q)
    (enable_rebalancing : bool) (rebalancing_threshold : Q)
    (g : RandomState)
  : option (SimulationResults * RandomState) :=
  '(hysa_returns, g0) ← calculate_monthly_return hysa_apy 0 g;
  HYSA_monthly_returns ← head hysa_returns;
  for_each
    (fun acc '(seq_idx, hs) =>
       for_each
         (fun '(simulation_results, g) iteration_no =>
            '(investment_breakdown, g') ←
              run_pair investment_mix investment_start emergency_fund_start
                enable_rebalancing rebalancing_threshold
                contribution_function HYSA_monthly_returns
                SP500_std NASDAQ_std T_Bills_std hs g;
            Some ({| iteration := iteration simulation_results ++ [iteration_no];
                     sequence_index :=
                       sequence_index simulation_results ++ [seq_idx];
                     sequence_start_year :=
                       sequence_start_year simulation_results ++ [start_year hs];
                     sequence_end_year :=
                       sequence_end_year simulation_results ++ [end_year hs];
                     result_dict :=
                       result_dict simulation_results ++ [investment_breakdown] |},
                  g'))
         (py_range 0 total_iterations) acc)
    (imap (fun i hs => (Z.of_nat i, hs)) complete_sequences)
    ({| iteration := []; sequence_index := []; sequence_start_year := [];
        sequence_end_year := []; result_dict := [] |}, g0).

(** *** IRRSolver *)

Definition npv (cash_flows times : list Q) (rate : Q) : Q :=
  fold_left (fun acc '(cf, t) => acc + cf / pow (1 + rate) t)
            (zip cash_flows times) 0.

Definition npv_derivative (cash_flows times : list Q) (rate : Q) : Q :=
  fold_left (fun acc '(cf, t) => acc + (- t * cf) / pow (1 + rate) (t + 1))
            (zip cash_flows times) 0.

(** [try: return newton(...) except: return np.nan] *)
Definition calculate_irr (cash_flows times : list Q) : npfloat :=
  match newton (npv cash_flows times) (5 # 100)
               (npv_derivative cash_flows times) 100 with
  | Some irr => irr
  | None => NaN
  end.

(** The body of the first [for month_idx in range(1, total_months + 1)]. *)
Definition portfolio_flow (contribution_function : Z -> Q)
    (acc : list Q * list Q) (month_idx : Z) : list Q * list Q :=
  let '(cash_flows, times) := acc in
  let month := (month_idx - 1)%Z in
  let contribution := contribution_function month in
  (cash_flows ++ [- contribution], times ++ [inject_Z month_idx / 12]).

(** The portfolio cash flows and times of one run. *)
Definition portfolio_cash_flows (contribution_function : Z -> Q)
    (rd : Breakdown) : option (list Q * list Q) :=
  sp0 ← py_index (SP500 rd) 0;
  nq0 ← py_index (NASDAQ100 rd) 0;
  tb0 ← py_index (TBILL_3M rd) 0;
  hy0 ← py_index (HYSA rd) 0;
  em0 ← py_index (Emergency_fund rd) 0;
  let initial := sp0 + nq0 + tb0 + hy0 + em0 in
  let total_months := (Z.of_nat (length (Month_Index rd)) - 1)%Z in
  let '(cash_flows, times) :=
    fold_left (portfolio_flow contribution_function)
              (py_range 1 (total_months + 1)) ([- initial], [0]) in
  sp1 ← py_index (SP500 rd) (-1);
  nq1 ← py_index (NASDAQ100 rd) (-1);
  tb1 ← py_index (TBILL_3M rd) (-1);
  hy1 ← py_index (HYSA rd) (-1);
  em1 ← py_index (Emergency_fund rd) (-1);
  let final := sp1 + nq1 + tb1 + hy1 + em1 in
  Some (cash_flows ++ [final], times ++ [15]).

(** The body of the second [for month_idx in range(1, total_months + 1)]. *)
Definition baseline_flow (HYSA_monthly_returns : Q) (rd : Breakdown)
    (acc : list Q * list Q) (month_idx : Z) : option (list Q * list Q) :=
  let '(baseline_cash_flows, baseline_times) := acc in
  prev_baseline ← py_index (Baseline rd) (month_idx - 1);
  curr_baseline ← py_index (Baseline rd) month_idx;
  quotient ← py_div curr_baseline (1 + HYSA_monthly_returns);
  let baseline_contribution := quotient - prev_baseline in
  Some (baseline_cash_flows ++ [- baseline_contribution],
        baseline_times ++ [inject_Z month_idx / 12]).

(** The Baseline cash flows and times of one run. *)
Definition baseline_cash_flows (HYSA_monthly_returns : Q) (rd : Breakdown)
  : option (list Q * list Q) :=
  baseline_initial ← py_index (Baseline rd) 0;
  let total_months := (Z.of_nat (length (Month_Index rd)) - 1)%Z in
  '(baseline_cash_flows, baseline_times) ←
    for_each (baseline_flow HYSA_monthly_returns rd)
             (py_range 1 (total_months + 1)) ([- baseline_initial], [0]);
  baseline_final ← py_index (Baseline rd) (-1);
  Some (baseline_cash_flows ++ [baseline_final], baseline_times ++ [15]).

(** [if not np.isnan(irr): irr_returns.append(irr * 100)] *)
Definition append_irr (irrs : list Q) (irr : npfloat) : list Q :=
  match irr with
  | Fin r => irrs ++ [r * 100]
  | NaN => irrs
  end.

(** The body of [for idx, result_dict in enumerate(...)]. *)
Definition irr_body (contribution_function : Z -> Q)
    (HYSA_monthly_returns : Q) (acc : IrrData) (rd : Breakdown)
  : option IrrData :=
  '(cash_flows, times) ← portfolio_cash_flows contribution_function rd;
  let irr := calculate_irr cash_flows times in
  let irr_returns := append_irr (irr_returns acc) irr in
  '(baseline_cash_flows, baseline_times) ←
    baseline_cash_flows HYSA_monthly_returns rd;
  let baseline_irr := calculate_irr baseline_cash_flows baseline_times in
  Some {| irr_returns := irr_returns;
          baseline_irr_returns :=
            append_irr (baseline_irr_returns acc) baseline_irr |}.

Definition calculate_all_irrs (simulation_results : SimulationResults)
    (contribution_function : Z -> Q) (HYSA_monthly_returns : Q)
  : option IrrData :=
  for_each (irr_body contribution_function HYSA_monthly_returns)
           (result_dict simulation_results)
           {| irr_returns := []; baseline_irr_returns := [] |}.

(** *** StatisticsAggregator *)

(** The body of [for result_dict in simulation_results['result_dict']]. *)
Definition milestone_collect (month_index : Z) (acc : list Q * list Q)
    (rd : Breakdown) : option (list Q * list Q) :=
  let '(milestone_values, milestone_baselines) := acc in
  if (Z.of_nat (length (Month_Index rd)) >? month_index)%Z then
    sp ← py_index (SP500 rd) month_index;
    nq ← py_index (NASDAQ100 rd) month_index;
    tb ← py_index (TBILL_3M rd) month_index;
    hy ← py_index (HYSA rd) month_index;
    em ← py_index (Emergency_fund rd) month_index;
    let total := sp + nq + tb + hy + em in
    bl ← py_index (Baseline rd) month_index;
    Some (milestone_values ++ [total], milestone_baselines ++ [bl])
  else Some (milestone_values, milestone_baselines).

(** The collecting loop of [calculate_milestone_statistics]. *)
Definition milestone_arrays (simulation_results : SimulationResults)
    (month_index : Z) : option (list Q * list Q) :=
  for_each (milestone_collect month_index)
           (result_dict simulation_results) ([], []).

(** [np.sum(milestone_values > milestone_baselines)] *)
Definition count_beating (milestone_values milestone_baselines : list Q) : Z :=
  Z.of_nat (length (filter (fun '(v, b) => Qgtb v b = true)
                           (zip milestone_values milestone_baselines))).

(** The returned dict, its entries evaluated in source order. *)
Definition milestone_summary (milestone_values milestone_baselines : list Q)
  : option MilestoneStats :=
  v25 ← np_percentile milestone_values 25;
  v50 ← np_percentile milestone_values 50;
  v75 ← np_percentile milestone_values 75;
  avg ← np_mean milestone_baselines;
  let beat :=
    np_mul (np_true_divide (count_beating milestone_values milestone_baselines)
                           (Z.of_nat (length milestone_values)))
           (Fin 100) in
  v50' ← np_percentile milestone_values 50;
  avg' ← np_mean milestone_baselines;
  Some {| p25 := v25; p50 := v50; p75 := v75; avg_baseline := avg;
          beat_baseline_pct := beat; median_gain := np_sub v50' avg' |}.

Definition calculate_milestone_statistics
    (simulation_results : SimulationResults) (year : Z)
  : option MilestoneStats :=
  let month_index := (year * 12)%Z in
  '(milestone_values, milestone_baselines) ←
    milestone_arrays simulation_results month_index;
  milestone_summary milestone_values milestone_baselines.

(** The IRR of one run, as [calculate_all_irrs] computes it. *)
Definition portfolio_irr (contribution_function : Z -> Q) (rd : Breakdown)
  : npfloat :=
  match portfolio_cash_flows contribution_function rd with
  | Some (cash_flows, times) => calculate_irr cash_flows times
  | None => NaN
  end.

Definition baseline_irr (HYSA_monthly_returns : Q) (rd : Breakdown) : npfloat :=
  match baseline_cash_flows HYSA_monthly_returns rd with
  | Some (cash_flows, times) => calculate_irr cash_flows times
  | None => NaN
  end.

(** What one run adds to an aggregate IRR array. *)
Definition kept_irr (irr : npfloat) : list Q :=
  match irr with
  | Fin r => [r * 100]
  | NaN => []
  end.

(** What the solver makes of a list of cash flows: 100 times the root when
    it returns a number, nothing when it raises or returns [nan]. *)
Definition solver_entry (cash_flows times : list Q) : list Q :=
  match newton (npv cash_flows times) (5 # 100)
               (npv_derivative cash_flows times) 100 with
  | Some (Fin r) => [r * 100]
  | Some NaN => []
  | None => []
  end.

(** The entry of one run in each of the two aggregate arrays. *)
Definition portfolio_entry (contribution_function : Z -> Q) (rd : Breakdown)
  : list Q :=
  match portfolio_cash_flows contribution_function rd with
  | Some (cash_flows, times) => solver_entry cash_flows times
  | None => []
  end.

Definition baseline_entry (HYSA_monthly_returns : Q) (rd : Breakdown)
  : list Q :=
  match baseline_cash_flows HYSA_monthly_returns rd with
  | Some (cash_flows, times) => solver_entry cash_flows times
  | None => []
  end.


(** * Properties *)

Set Default Proof Using "Type".

(** [tauto] on a goal that does not mention the library primitives. *)
Ltac tauto_closed :=
  clear pow standard_normal newton np_percentile np_mean; tauto.

(** ** ContributionSchedule lookup *)

Lemma by_start_trans : Transitive by_start.
Proof. intros p q r; unfold by_start; lia. Qed.

(** On a sorted schedule the loop stops exactly where the start months
    pass [month]. *)
Lemma contribution_loop_sorted month periods acc :
  StronglySorted by_start periods ->
  contribution_loop month periods acc =
    match last (filter (fun p => (start_month p <= month)%Z) periods) with
    | Some p => contribution p
    | None => acc
    end.
Proof.
  intros Hs; revert acc.
  induction Hs as [|p rest Hs IH Hall]; intros acc; [reflexivity|].
  cbn [contribution_loop].
  destruct (Z.geb_spec month (start_month p)) as [Hge|Hlt].
  - rewrite IH, filter_cons_True by lia.
    rewrite last_cons.
    destruct (last (filter _ rest)); reflexivity.
  - rewrite filter_cons_False by lia.
    replace (filter (fun p0 => (start_month p0 <= month)%Z) rest) with
      (@nil ContributionPeriod); [reflexivity|].
    symmetry. clear -Hall Hlt.
    induction Hall as [|q rest Hq _ IH]; [reflexivity|].
    rewrite filter_cons_False by (unfold by_start in Hq; lia).
    exact IH.
Qed.

(** C9 (as amended).  On a schedule sorted by start month the lookup
    returns the amount of the last period whose start month is at most
    [month]; before the first start month it returns the first period's
    amount; at a period's own start month it returns that period's amount
    provided no later period starts in the same month. *)
Theorem contribution_lookup_sorted month first rest :
  Sorted by_start (first :: rest) ->
  get_contribution_for_month month (first :: rest) =
    Some (match last (filter (fun p => (start_month p <= month)%Z)
                             (first :: rest)) with
          | Some p => contribution p
          | None => contribution first
          end)
  /\ ((month < start_month first)%Z ->
      get_contribution_for_month month (first :: rest)
      = Some (contribution first))
  /\ (forall earlier p later,
        first :: rest = earlier ++ p :: later ->
        start_month p = month ->
        Forall (fun q => start_month q <> month) later ->
        get_contribution_for_month month (first :: rest)
        = Some (contribution p)).
Proof.
  intros Hs.
  apply (@Sorted_StronglySorted _ by_start by_start_trans) in Hs.
  assert (Hget : get_contribution_for_month month (first :: rest) =
    Some (match last (filter (fun p => (start_month p <= month)%Z)
                             (first :: rest)) with
          | Some p => contribution p
          | None => contribution first
          end)).
  { unfold get_contribution_for_month.
    f_equal. apply contribution_loop_sorted; exact Hs. }
  split; [exact Hget|]. split.
  - intros Hlt. unfold get_contribution_for_month. f_equal.
    cbn [contribution_loop].
    destruct (Z.geb_spec month (start_month first)); [lia|reflexivity].
  - intros earlier p later Heq Hp Hlater.
    rewrite Hget, Heq. rewrite Heq in Hs.
    apply StronglySorted_app_1_r in Hs as Hs'.
    apply StronglySorted_inv in Hs' as [_ Hafter].
    rewrite filter_app, filter_cons_True by lia.
    replace (filter (fun p0 => (start_month p0 <= month)%Z) later) with
      (@nil ContributionPeriod).
    + rewrite last_snoc. reflexivity.
    + symmetry. clear -Hafter Hlater Hp.
      induction later as [|q later IH]; [reflexivity|].
      apply Forall_cons_1 in Hafter as [Hq Hafter].
      apply Forall_cons_1 in Hlater as [Hne Hlater].
      rewrite filter_cons_False by (unfold by_start in Hq; lia).
      apply IH; assumption.
Qed.

(** C9, counterexample.  Two periods may share a start month (the schedule
    is sorted, not strictly); the lookup at that month returns the later
    one's amount, not the earlier one's. *)
Lemma contribution_lookup_tie_counterexample :
  let second := {| contribution := 4000; start_month := 20 |} in
  let periods := [ {| contribution := 3200; start_month := 0 |};
                   second;
                   {| contribution := 1000; start_month := 20 |} ] in
  Sorted by_start periods /\
  In second periods /\
  get_contribution_for_month (start_month second) periods = Some 1000 /\
  ~ 1000 == contribution second.
Proof.
  cbv zeta. split; [|split; [|split]].
  - repeat constructor; unfold by_start; cbn; lia.
  - right; left; reflexivity.
  - reflexivity.
  - cbn. intros H. discriminate H.
Qed.

(** ** HistoricalSequenceLibrary *)

(** Whatever the table, the windows come in start-year order, one per year
    of the [range], and each ends 14 years after it starts. *)
Lemma get_15_year_sequences_shape mr seqs :
  get_15_year_sequences mr = Some seqs ->
  exists earliest_year latest_year,
    map start_year seqs = py_range earliest_year (latest_year - 14) /\
    Forall (fun hs => end_year hs = (start_year hs + 14)%Z) seqs.
Proof.
  unfold get_15_year_sequences. intros H.
  repeat match type of H with
         | context [mbind _ ?o] => destruct o; cbn [mbind option_bind] in H;
                                   [|discriminate H]
         end.
  injection H as <-.
  eexists _, _. split.
  - rewrite map_map. cbn [make_sequence start_year]. apply map_id.
  - generalize (py_range (Z.min (Z.min z z0) z1) (Z.max (Z.max z2 z3) z4 - 14)).
    intros years. induction years; constructor; [reflexivity|assumption].
Qed.

(** C1, the window the code leaves out.  On the source's own table the
    latest year is 2024 and the generated start years are 1926..2009: the
    window 2010..2024 (start year = latest year - 14), for which all three
    assets have data, is not generated. *)
Theorem get_15_year_sequences_stops_one_window_early :
  exists seqs,
    get_15_year_sequences market_returns = Some seqs /\
    map start_year seqs = seqZ 1926 84 /\
    last (sorted_keys (mr_SP500 market_returns)) = Some 2024%Z /\
    last (sorted_keys (mr_NASDAQ100 market_returns)) = Some 2024%Z /\
    last (sorted_keys (mr_TBILL_3M market_returns)) = Some 2024%Z /\
    ~ In (2024 - 14)%Z (map start_year seqs) /\
    is_complete
      (make_sequence market_returns
         (sorted_keys (mr_SP500 market_returns))
         (sorted_keys (mr_NASDAQ100 market_returns))
         (sorted_keys (mr_TBILL_3M market_returns)) (2024 - 14)) = true.
Proof.
  eexists. split; [vm_compute; reflexivity|].
  split; [vm_compute; reflexivity|].
  split; [vm_compute; reflexivity|].
  split; [vm_compute; reflexivity|].
  split; [vm_compute; reflexivity|].
  split; [|vm_compute; reflexivity].
  intros Hin. vm_compute in Hin.
  repeat (destruct Hin as [Hin|Hin]; [discriminate Hin|]).
  exact Hin.
Qed.

(** ** Rebalancing can go negative *)

(** C10.  Four months of the engine from a 10/30/30/30 target with 1000
    invested, 100 contributed each month and S&P 500 returning 30% a month:
    at the month-3 checkpoint the S&P 500 drift exceeds the 5% threshold,
    the adjustment is triggered, and the new mix gives S&P 500 the share
    -2/5 (the four shares still sum to 1), so month 3's contribution of 100
    takes 40 out of the S&P 500 balance. *)
Theorem rebalanced_mix_can_be_negative :
  let target_mix := {| mix_SP500 := 1 # 10; mix_NASDAQ := 3 # 10;
                       mix_TBill := 3 # 10; mix_HYSA := 3 # 10 |} in
  let step := month_step target_mix true (5 # 100) (fun _ => 100) 0 in
  let st3 := fold_left step [(3 # 10, 0, 0); (3 # 10, 0, 0); (3 # 10, 0, 0)]
               (initial_breakdown target_mix 1000 0, target_mix) in
  let st4 := step st3 (0, 0, 0) in
  last (Month_Index (fst st3)) = Some 3%Z /\
  5 # 100 < Qabs (mix_SP500 (current_allocation (fst st3))
                  - mix_SP500 target_mix) /\
  adjustment_triggered target_mix true (5 # 100) (fst st3) = true /\
  mix_SP500 (snd st4) == - (2 # 5) /\
  mix_SP500 (snd st4) < 0 /\
  mix_sum (snd st4) == 1 /\
  at_month (SP500 (fst st4)) 4
  == (at_month (SP500 (fst st4)) 3 - 40) * (1 + 0).
Proof.
  cbv zeta. repeat split; vm_compute; reflexivity.
Qed.

(** ** StatisticsAggregator on no data *)

Lemma milestone_arrays_none_reached sr month_index :
  Forall (fun rd => (Z.of_nat (length (Month_Index rd)) <= month_index)%Z)
         (result_dict sr) ->
  milestone_arrays sr month_index = Some ([], []).
Proof.
  unfold milestone_arrays.
  generalize (@nil Q, @nil Q).
  induction 1 as [|rd rds Hrd _ IH]; intros; [reflexivity|].
  cbn [for_each]. unfold milestone_collect at 1. destruct p as [vs bs].
  destruct (Z.gtb_spec (Z.of_nat (length (Month_Index rd))) month_index);
    [lia|]. apply IH.
Qed.

(** C2 (as amended).  When no run reaches the milestone month -- in
    particular on an empty result set -- [calculate_milestone_statistics]
    makes no check of its own: it hands two empty arrays to the percentile
    and mean routines, and its outcome is theirs, with the beat-baseline
    percentage the [nan] of 0 / 0. *)
Theorem milestone_statistics_without_data sr year :
  Forall (fun rd => (Z.of_nat (length (Month_Index rd)) <= year * 12)%Z)
         (result_dict sr) ->
  calculate_milestone_statistics sr year =
    (v25 ← np_percentile [] 25;
     v50 ← np_percentile [] 50;
     v75 ← np_percentile [] 75;
     avg ← np_mean [];
     v50' ← np_percentile [] 50;
     avg' ← np_mean [];
     Some {| p25 := v25; p50 := v50; p75 := v75; avg_baseline := avg;
             beat_baseline_pct := NaN; median_gain := np_sub v50' avg' |}).
Proof.
  intros H. unfold calculate_milestone_statistics.
  rewrite milestone_arrays_none_reached by exact H.
  reflexivity.
Qed.

(** ** IRR cash flows *)

Lemma py_index_nat {A : Type} (l : list A) (k : nat) :
  py_index l (Z.of_nat k) = l !! k.
Proof.
  unfold py_index. destruct (Z.leb_spec 0 (Z.of_nat k)); [|lia].
  rewrite Nat2Z.id. reflexivity.
Qed.

Lemma py_index_last {A : Type} (l : list A) : py_index l (-1) = last l.
Proof.
  unfold py_index. cbn [Z.leb Z.compare].
  rewrite last_lookup.
  destruct l as [|x l]; [reflexivity|].
  destruct (Z.ltb_spec (Z.of_nat (length (x :: l)) + -1) 0) as [H|H];
    [cbn [length] in H; lia|].
  f_equal. cbn [length]. lia.
Qed.

Lemma lookup_at_month (l : list Q) (k : nat) :
  (k < length l)%nat -> l !! k = Some (at_month l k).
Proof.
  intros H. unfold at_month.
  destruct (lookup_lt_is_Some_2 l k H) as [x Hx].
  rewrite Hx. f_equal. symmetry. apply nth_lookup_Some with (d := 0) in Hx.
  exact Hx.
Qed.

Lemma py_index_in_range (l : list Q) (k : Z) :
  (0 <= k < Z.of_nat (length l))%Z ->
  py_index l k = Some (at_month l (Z.to_nat k)).
Proof.
  intros H. rewrite <- (Z2Nat.id k) at 1 by lia.
  rewrite py_index_nat. apply lookup_at_month. lia.
Qed.

Lemma py_div_defined a b : ~ b == 0 -> py_div a b = Some (a / b).
Proof.
  intros Hb. unfold py_div.
  destruct (Qeq_bool b 0) eqn:E; [|reflexivity].
  apply Qeq_bool_iff in E. contradiction.
Qed.

Lemma py_div_zero a b : b == 0 -> py_div a b = None.
Proof.
  intros Hb. unfold py_div.
  apply Qeq_bool_iff in Hb. rewrite Hb. reflexivity.
Qed.

Lemma baseline_loop rate rd ks cfs ts :
  ~ 1 + rate == 0 ->
  Forall (fun k => (1 <= k < Z.of_nat (length (Baseline rd)))%Z) ks ->
  for_each (baseline_flow rate rd) ks (cfs, ts) =
    Some (cfs ++ map (fun k => - implied_contribution_at rate rd k) ks,
          ts ++ map (fun k => inject_Z k / 12) ks).
Proof.
  intros Hrate H; revert cfs ts.
  induction H as [|k ks Hk _ IH]; intros cfs ts.
  - cbn. rewrite !app_nil_r. reflexivity.
  - cbn [for_each]. unfold baseline_flow at 1.
    rewrite !py_index_in_range by lia.
    cbn [mbind option_bind].
    rewrite py_div_defined by exact Hrate.
    cbn [mbind option_bind].
    rewrite IH. cbn [map]. rewrite <- !app_assoc. reflexivity.
Qed.

Lemma portfolio_loop f ks cfs ts :
  fold_left (portfolio_flow f) ks (cfs, ts) =
    (cfs ++ map (fun k => - f (k - 1)%Z) ks,
     ts ++ map (fun k => inject_Z k / 12) ks).
Proof.
  revert cfs ts. induction ks as [|k ks IH]; intros cfs ts.
  - cbn. rewrite !app_nil_r. reflexivity.
  - cbn [fold_left portfolio_flow]. rewrite IH. cbn [map].
    rewrite <- !app_assoc. reflexivity.
Qed.

Lemma py_range_bounds a b :
  Forall (fun k => (a <= k < b)%Z) (py_range a b).
Proof.
  unfold py_range. apply Forall_forall. intros k Hk.
  apply elem_of_seqZ in Hk. lia.
Qed.

(** Every entry of a well-formed run has its Baseline cash flows. *)
Lemma baseline_cash_flows_wf rate rd :
  well_formed rd -> ~ 1 + rate == 0 ->
  baseline_cash_flows rate rd =
    Some (([- at_month (Baseline rd) 0]
           ++ map (fun k => - implied_contribution_at rate rd k)
                  (py_range 1 (Z.of_nat (length (Month_Index rd)) - 1 + 1)))
          ++ [at_month (Baseline rd) (length (Baseline rd) - 1)],
          ([0] ++ map (fun k => inject_Z k / 12)
                      (py_range 1 (Z.of_nat (length (Month_Index rd)) - 1 + 1)))
          ++ [15]).
Proof.
  intros (Hpos & _ & _ & _ & _ & _ & Hb) Hrate.
  unfold baseline_cash_flows.
  rewrite (py_index_in_range (Baseline rd) 0) by lia.
  cbn [mbind option_bind]. change (Z.to_nat 0) with 0%nat.
  rewrite baseline_loop; [|exact Hrate|].
  2:{ eapply Forall_impl; [apply py_range_bounds|].
      intros k Hk. cbn beta in Hk |- *. lia. }
  cbn [mbind option_bind].
  rewrite py_index_last, last_lookup.
  rewrite lookup_at_month by lia.
  cbn [mbind option_bind].
  replace (Init.Nat.pred (length (Baseline rd)))
    with (length (Baseline rd) - 1)%nat by lia.
  reflexivity.
Qed.

Lemma portfolio_cash_flows_wf f rd :
  well_formed rd ->
  exists cfs ts, portfolio_cash_flows f rd = Some (cfs, ts).
Proof.
  intros (Hpos & H1 & H2 & H3 & H4 & H5 & _).
  unfold portfolio_cash_flows.
  rewrite !(py_index_in_range _ 0) by lia.
  cbn [mbind option_bind].
  rewrite portfolio_loop.
  rewrite !py_index_last, !last_lookup.
  rewrite !lookup_at_month by lia.
  cbn [mbind option_bind]. eauto.
Qed.




(** ** IRR failures *)

Lemma append_irr_kept irrs irr : append_irr irrs irr = irrs ++ kept_irr irr.
Proof. destruct irr; cbn; [reflexivity|rewrite app_nil_r; reflexivity]. Qed.

Lemma irr_loop_wf f rate rds acc :
  ~ 1 + rate == 0 ->
  Forall well_formed rds ->
  for_each (irr_body f rate) rds acc =
    Some {| irr_returns :=
              irr_returns acc
              ++ flat_map (fun rd => kept_irr (portfolio_irr f rd)) rds;
            baseline_irr_returns :=
              baseline_irr_returns acc
              ++ flat_map (fun rd => kept_irr (baseline_irr rate rd)) rds |}.
Proof.
  intros Hrate H; revert acc.
  induction H as [|rd rds Hrd _ IH]; intros acc.
  - cbn. rewrite !app_nil_r. destruct acc; reflexivity.
  - cbn [for_each flat_map]. unfold irr_body at 1.
    destruct (portfolio_cash_flows_wf f rd Hrd) as (cfs & ts & Hp).
    pose proof (baseline_cash_flows_wf rate rd Hrd Hrate) as Hb.
    destruct (baseline_cash_flows rate rd) as [[bc bt]|] eqn:Hb';
      [clear Hb|discriminate Hb].
    assert (portfolio_irr f rd = calculate_irr cfs ts) as ->
      by (unfold portfolio_irr; rewrite Hp; reflexivity).
    assert (baseline_irr rate rd = calculate_irr bc bt) as ->
      by (unfold baseline_irr; rewrite Hb'; reflexivity).
    rewrite Hp. cbn [mbind option_bind].
    rewrite IH. cbn [irr_returns baseline_irr_returns].
    rewrite !append_irr_kept, <- !app_assoc. reflexivity.
Qed.

(** What [calculate_irr] keeps of a list of cash flows is what the solver
    made of it. *)
Lemma kept_irr_solver cash_flows times :
  kept_irr (calculate_irr cash_flows times) = solver_entry cash_flows times.
Proof.
  unfold calculate_irr, solver_entry.
  destruct (newton _ _ _ _) as [[r|]|]; reflexivity.
Qed.

Lemma portfolio_entry_kept f rd :
  kept_irr (portfolio_irr f rd) = portfolio_entry f rd.
Proof.
  unfold portfolio_irr, portfolio_entry.
  destruct (portfolio_cash_flows f rd) as [[cfs ts]|];
    [apply kept_irr_solver|reflexivity].
Qed.

Lemma baseline_entry_kept rate rd :
  kept_irr (baseline_irr rate rd) = baseline_entry rate rd.
Proof.
  unfold baseline_irr, baseline_entry.
  destruct (baseline_cash_flows rate rd) as [[cfs ts]|];
    [apply kept_irr_solver|reflexivity].
Qed.

Lemma flat_map_pointwise {X Y : Type} (f g : X -> list Y) l :
  (forall x, f x = g x) -> flat_map f l = flat_map g l.
Proof.
  intros H. induction l as [|x l IH]; [reflexivity|].
  cbn [flat_map]. rewrite H, IH. reflexivity.
Qed.

(** C8.  [calculate_irr] returns [nan] when the solver raises and the
    solver's own result when it returns.  Over a batch of well-formed runs,
    with a cash rate other than -100%, [calculate_all_irrs] always returns:
    a run whose solver raises or returns [nan] does not stop the batch and
    adds nothing to the array, and every run whose solver returns a number
    adds 100 times that number, the entries standing in run order. *)
Theorem irr_failures_are_dropped sr f rate :
  Forall well_formed (result_dict sr) -> ~ 1 + rate == 0 ->
  (forall cash_flows times,
      (newton (npv cash_flows times) (5 # 100)
              (npv_derivative cash_flows times) 100 = None ->
       calculate_irr cash_flows times = NaN)
      /\ (forall irr,
            newton (npv cash_flows times) (5 # 100)
                   (npv_derivative cash_flows times) 100 = Some irr ->
            calculate_irr cash_flows times = irr))
  /\ exists d,
      calculate_all_irrs sr f rate = Some d /\
      irr_returns d = flat_map (portfolio_entry f) (result_dict sr) /\
      baseline_irr_returns d = flat_map (baseline_entry rate) (result_dict sr) /\
      (forall rd, In rd (result_dict sr) ->
         exists cfs ts bcfs bts,
           portfolio_cash_flows f rd = Some (cfs, ts) /\
           baseline_cash_flows rate rd = Some (bcfs, bts) /\
           (forall r,
               newton (npv cfs ts) (5 # 100) (npv_derivative cfs ts) 100
               = Some (Fin r) ->
               portfolio_entry f rd = [r * 100] /\ In (r * 100) (irr_returns d)) /\
           (newton (npv cfs ts) (5 # 100) (npv_derivative cfs ts) 100 = None ->
            portfolio_entry f rd = []) /\
           (forall r,
               newton (npv bcfs bts) (5 # 100) (npv_derivative bcfs bts) 100
               = Some (Fin r) ->
               baseline_entry rate rd = [r * 100] /\
               In (r * 100) (baseline_irr_returns d)) /\
           (newton (npv bcfs bts) (5 # 100) (npv_derivative bcfs bts) 100 = None ->
            baseline_entry rate rd = [])).
Proof.
  intros Hwf Hrate. split.
  - intros cash_flows times. unfold calculate_irr. split.
    + intros Hn. rewrite Hn. reflexivity.
    + intros irr Hn. rewrite Hn. reflexivity.
  - unfold calculate_all_irrs. rewrite (irr_loop_wf f rate _ _ Hrate Hwf).
    eexists. split; [reflexivity|]. cbn [irr_returns baseline_irr_returns app].
    split; [apply flat_map_pointwise, portfolio_entry_kept|].
    split; [apply flat_map_pointwise, baseline_entry_kept|].
    intros rd Hin.
    assert (Hrd : well_formed rd).
    { apply (proj1 (Forall_forall _ _) Hwf).
      apply (proj2 (list_elem_of_In _ _)). exact Hin. }
    destruct (portfolio_cash_flows_wf f rd Hrd) as (cfs & ts & Hp).
    pose proof (baseline_cash_flows_wf rate rd Hrd Hrate) as Hb.
    eexists cfs, ts, _, _. split; [exact Hp|]. split; [exact Hb|].
    split; [|split; [|split]].
    + intros r Hn.
      assert (He : portfolio_entry f rd = [r * 100]).
      { unfold portfolio_entry. rewrite Hp. unfold solver_entry.
        rewrite Hn. reflexivity. }
      split; [exact He|]. apply in_flat_map. exists rd.
      split; [exact Hin|]. rewrite portfolio_entry_kept, He. left; reflexivity.
    + intros Hn. unfold portfolio_entry. rewrite Hp. unfold solver_entry.
      rewrite Hn. reflexivity.
    + intros r Hn.
      assert (He : baseline_entry rate rd = [r * 100]).
      { unfold baseline_entry. rewrite Hb. unfold solver_entry.
        rewrite Hn. reflexivity. }
      split; [exact He|]. apply in_flat_map. exists rd.
      split; [exact Hin|]. rewrite baseline_entry_kept, He. left; reflexivity.
    + intros Hn. unfold baseline_entry. rewrite Hb. unfold solver_entry.
      rewrite Hn. reflexivity.
Qed.

(** ** RebalancingPolicy *)

Lemma Qgtb_true a b : Qgtb a b = true <-> b < a.
Proof.
  unfold Qgtb. rewrite negb_true_iff.
  destruct (Qle_bool a b) eqn:E.
  - apply Qle_bool_iff in E. split; [discriminate|]. intros H. lra.
  - split; [|reflexivity]. intros _.
    destruct (Qlt_le_dec b a) as [H|H]; [exact H|].
    apply Qle_bool_iff in H. congruence.
Qed.

Lemma Qgtb_false a b : Qgtb a b = false <-> a <= b.
Proof.
  unfold Qgtb. rewrite negb_false_iff. apply Qle_bool_iff.
Qed.

Lemma is_checkpoint_true enable month :
  is_checkpoint enable month = true <-> enable = true /\ quarterly month.
Proof.
  unfold is_checkpoint, quarterly.
  rewrite !andb_true_iff, Z.gtb_lt, Z.eqb_eq. tauto_closed.
Qed.


Lemma Qabs_pos_iff x : 0 < Qabs x <-> ~ x == 0.
Proof.
  apply Qabs_case; intros H; split; intros H'; lra.
Qed.

(** With a zero threshold the drift test is just inequality with the
    target. *)
Lemma drift_exceeds_zero target allocation threshold :
  threshold == 0 ->
  drift_exceeds target allocation threshold <-> ~ mix_eq allocation target.
Proof.
  intros Hz. unfold drift_exceeds, mix_eq. rewrite !Hz, !Qabs_pos_iff.
  destruct (Qeq_dec (mix_SP500 allocation) (mix_SP500 target));
    destruct (Qeq_dec (mix_NASDAQ allocation) (mix_NASDAQ target));
    destruct (Qeq_dec (mix_TBill allocation) (mix_TBill target));
    destruct (Qeq_dec (mix_HYSA allocation) (mix_HYSA target));
    split; intros H;
    try (intros (H1 & H2 & H3 & H4); lra);
    try (exfalso; apply H; tauto_closed);
    try (destruct H as [H|[H|[H|H]]]; lra);
    try (left; lra); try (right; left; lra);
    try (right; right; left; lra); try (right; right; right; lra).
Qed.



(** When allocation and target have the same total and differ somewhere,
    some asset is under target. *)
Lemma total_adjustment_positive target allocation :
  mix_sum allocation == mix_sum target ->
  ~ mix_eq allocation target ->
  0 < total_adjustment (adjustments target allocation).
Proof.
  unfold total_adjustment, adjustments, mix_eq.
  unfold mix_sum, mix_map, mix_map2; cbn.
  intros Hsum Hne.
  destruct (Q.max_spec 0 (- (mix_SP500 allocation - mix_SP500 target)))
    as [[? E1]|[? E1]];
    destruct (Q.max_spec 0 (- (mix_NASDAQ allocation - mix_NASDAQ target)))
      as [[? E2]|[? E2]];
    destruct (Q.max_spec 0 (- (mix_TBill allocation - mix_TBill target)))
      as [[? E3]|[? E3]];
    destruct (Q.max_spec 0 (- (mix_HYSA allocation - mix_HYSA target)))
      as [[? E4]|[? E4]];
    lra.
Qed.







Lemma month_step_mix target enable threshold f rate ib current_mix r :
  snd (month_step target enable threshold f rate (ib, current_mix) r)
  = quarterly_check target enable threshold ib current_mix.
Proof. destruct r as [[r1 r2] r3]. reflexivity. Qed.


Lemma renormalise_unit m : mix_sum m == 1 -> mix_eq (renormalise m) m.
Proof.
  intros H. unfold renormalise.
  destruct (Qgtb (mix_sum m) 0) eqn:E.
  - unfold mix_eq, mix_map; cbn.
    repeat split; rewrite H; field.
  - apply Qgtb_false in E. lra.
Qed.

Lemma half_step_zero t a T :
  0 < T -> t + a / T * (1 # 2) == t -> a == 0.
Proof.
  intros HT H.
  assert (Hx : a / T == 0) by lra.
  assert (Ha : a == a / T * T) by (field; lra).
  rewrite Ha, Hx. ring.
Qed.

(** A triggered adjustment moves the mix off the target. *)
Lemma adjusted_mix_off_target target allocation :
  0 < total_adjustment (adjustments target allocation) ->
  ~ mix_eq allocation target ->
  ~ mix_eq (adjusted_mix target (adjustments target allocation)) target.
Proof.
  intros HT Hne Heq. apply Hne. clear Hne.
  set (T := total_adjustment (adjustments target allocation)) in *.
  unfold mix_eq, adjusted_mix, mix_map2 in Heq; cbn in Heq.
  fold T in Heq.
  destruct Heq as (H1 & H2 & H3 & H4).
  destruct (Qgtb (- (mix_SP500 allocation - mix_SP500 target)) 0);
    destruct (Qgtb (- (mix_NASDAQ allocation - mix_NASDAQ target)) 0);
    destruct (Qgtb (- (mix_TBill allocation - mix_TBill target)) 0);
    destruct (Qgtb (- (mix_HYSA allocation - mix_HYSA target)) 0);
    apply (half_step_zero _ _ _ HT) in H1, H2, H3, H4;
    unfold mix_eq; (split; [|split; [|split]]); lra.
Qed.

Lemma mix_eq_trans a b c : mix_eq a b -> mix_eq b c -> mix_eq a c.
Proof.
  unfold mix_eq. intros (?&?&?&?) (?&?&?&?).
  split; [|split; [|split]]; lra.
Qed.

Lemma mix_eq_sym a b : mix_eq a b -> mix_eq b a.
Proof.
  unfold mix_eq. intros (?&?&?&?). split; [|split; [|split]]; lra.
Qed.

(** ** The quarterly block over any arithmetic *)

Lemma block_quarterly_check_cases {A : Type} {ops : Block.NumOps A}
    target enable threshold month balances current_mix :
  Block.quarterly_check target enable threshold month balances current_mix =
    if Block.adjustment_triggered target enable threshold month balances
    then Block.renormalise
           (Block.adjusted_mix target
              (Block.adjustments target (Block.current_allocation balances)))
    else current_mix.
Proof.
  unfold Block.quarterly_check, Block.adjustment_triggered, Block.rebalance.
  destruct (is_checkpoint enable month); [|reflexivity].
  destruct (Block.num_gt (Block.total_value balances) Block.num_zero);
    [|reflexivity].
  destruct (Block.needs_rebalancing _ _ _); [|reflexivity].
  destruct (Block.num_gt (Block.total_adjustment _) Block.num_zero);
    reflexivity.
Qed.

Lemma block_needs_rebalancing_true {A : Type} {ops : Block.NumOps A}
    target allocation threshold :
  Block.needs_rebalancing target allocation threshold = true
  <-> Block.drift_exceeds target allocation threshold.
Proof.
  unfold Block.needs_rebalancing, Block.drift_exceeds.
  rewrite !orb_true_iff. clear. tauto.
Qed.

Lemma block_adjustment_triggered_true {A : Type} {ops : Block.NumOps A}
    target enable threshold month balances :
  Block.adjustment_triggered target enable threshold month balances = true <->
  enable = true /\ quarterly month /\
  Block.num_gt (Block.total_value balances) Block.num_zero = true /\
  Block.drift_exceeds target (Block.current_allocation balances) threshold /\
  Block.num_gt
    (Block.total_adjustment
       (Block.adjustments target (Block.current_allocation balances)))
    Block.num_zero = true.
Proof.
  unfold Block.adjustment_triggered.
  rewrite !andb_true_iff, is_checkpoint_true, block_needs_rebalancing_true.
  clear. tauto.
Qed.

Lemma py_max0_Qmax x : Block.py_max0 x = Qmax 0 x.
Proof.
  unfold Block.py_max0. cbn [Block.num_gt Block.num_zero Q_ops].
  destruct (Qgtb x 0) eqn:E.
  - apply Qgtb_true in E.
    unfold Qmax, GenericMinMax.gmax.
    destruct (Qcompare_spec 0 x) as [H|H|H]; [lra|reflexivity|lra].
  - apply Qgtb_false in E.
    unfold Qmax, GenericMinMax.gmax.
    destruct (Qcompare_spec 0 x) as [H|H|H]; [reflexivity|lra|reflexivity].
Qed.

Lemma total_adjustment_block adj :
  Block.total_adjustment (to_shares adj) = total_adjustment adj.
Proof.
  unfold Block.total_adjustment, total_adjustment, Block.shares_map, mix_map.
  unfold Block.shares_sum, mix_sum;
    cbn [Block.s_SP500 Block.s_NASDAQ Block.s_TBill Block.s_HYSA to_shares
           mix_SP500 mix_NASDAQ mix_TBill mix_HYSA].
  rewrite !py_max0_Qmax. reflexivity.
Qed.

Lemma adjusted_mix_block target adj :
  to_shares (adjusted_mix target adj)
  = Block.adjusted_mix (to_shares target) (to_shares adj).
Proof.
  unfold Block.adjusted_mix. rewrite total_adjustment_block. reflexivity.
Qed.

Lemma renormalise_block m :
  to_shares (renormalise m) = Block.renormalise (to_shares m).
Proof.
  unfold renormalise, Block.renormalise.
  change (Block.num_gt (Block.shares_sum (to_shares m)) Block.num_zero)
    with (Qgtb (mix_sum m) 0).
  destruct (Qgtb (mix_sum m) 0); reflexivity.
Qed.

(** On rationals the block is the engine's quarterly check. *)
Lemma quarterly_check_is_block target enable threshold ib current_mix :
  to_shares (quarterly_check target enable threshold ib current_mix)
  = Block.quarterly_check (to_shares target) enable threshold
      (default 0%Z (last (Month_Index ib))) (last_balances ib)
      (to_shares current_mix).
Proof.
  unfold quarterly_check, Block.quarterly_check.
  destruct (is_checkpoint enable _); [|reflexivity].
  unfold rebalance, Block.rebalance.
  change (Block.num_gt (Block.total_value (last_balances ib)) Block.num_zero)
    with (Qgtb (total_value ib) 0).
  destruct (Qgtb (total_value ib) 0); [|reflexivity].
  change (Block.current_allocation (last_balances ib))
    with (to_shares (current_allocation ib)).
  change (Block.needs_rebalancing (to_shares target)
            (to_shares (current_allocation ib)) threshold)
    with (needs_rebalancing target (current_allocation ib) threshold).
  destruct (needs_rebalancing target (current_allocation ib) threshold);
    [|reflexivity].
  cbv zeta.
  change (Block.adjustments (to_shares target)
            (to_shares (current_allocation ib)))
    with (to_shares (adjustments target (current_allocation ib))).
  rewrite total_adjustment_block.
  change (Block.num_gt (total_adjustment
                          (adjustments target (current_allocation ib)))
                       Block.num_zero)
    with (Qgtb (total_adjustment (adjustments target (current_allocation ib))) 0).
  destruct (Qgtb (total_adjustment _) 0); [|reflexivity].
  rewrite renormalise_block, adjusted_mix_block. reflexivity.
Qed.

(** C4 (as amended).  In any arithmetic -- binary64 included -- the quarterly
    block leaves the mix as it is at every month that is not a positive
    multiple of 3; whenever it changes the mix, rebalancing is enabled, the
    month is a checkpoint and some asset's |current - target| exceeds the
    threshold; and the mix is reassigned, to the renormalised half-step mix,
    exactly when on top of that the four-asset total is positive and the sum
    of the positive parts of target - current is positive -- otherwise,
    whatever the threshold, it is left unchanged.  On rationals this block is
    the engine's quarterly check. *)
Theorem mix_reassigned_only_under_guards :
  (forall (A : Type) (ops : Block.NumOps A)
          target enable threshold current_month balances current_mix,
      let allocation := Block.current_allocation balances in
      let new_mix :=
        Block.quarterly_check target enable threshold current_month
          balances current_mix in
      (~ quarterly current_month -> new_mix = current_mix)
      /\ (new_mix <> current_mix ->
          enable = true /\ quarterly current_month /\
          Block.drift_exceeds target allocation threshold)
      /\ (Block.adjustment_triggered target enable threshold current_month
            balances = true
          <-> enable = true /\ quarterly current_month /\
              Block.num_gt (Block.total_value balances) Block.num_zero = true /\
              Block.drift_exceeds target allocation threshold /\
              Block.num_gt
                (Block.total_adjustment (Block.adjustments target allocation))
                Block.num_zero = true)
      /\ new_mix
         = if Block.adjustment_triggered target enable threshold
                current_month balances
           then Block.renormalise
                  (Block.adjusted_mix target
                     (Block.adjustments target allocation))
           else current_mix)
  /\ (forall target enable threshold ib current_mix,
         to_shares (quarterly_check target enable threshold ib current_mix)
         = Block.quarterly_check (to_shares target) enable threshold
             (default 0%Z (last (Month_Index ib))) (last_balances ib)
             (to_shares current_mix)).
Proof.
  split; [|exact quarterly_check_is_block].
  intros A ops target enable threshold current_month balances current_mix
    allocation new_mix.
  subst new_mix allocation. rewrite block_quarterly_check_cases.
  pose proof (block_adjustment_triggered_true target enable threshold
                current_month balances) as Hiff.
  split; [|split; [|split]].
  - intros Hnq.
    destruct (Block.adjustment_triggered target enable threshold
                current_month balances); [|reflexivity].
    destruct (proj1 Hiff eq_refl) as (_ & Hq & _). contradiction.
  - intros Hch.
    destruct (Block.adjustment_triggered target enable threshold
                current_month balances);
      [|contradiction Hch; reflexivity].
    destruct (proj1 Hiff eq_refl) as (He & Hq & _ & Hd & _).
    split; [exact He|]. split; [exact Hq|exact Hd].
  - exact Hiff.
  - reflexivity.
Qed.

(** ** The engine, month by month *)

Lemma length_year_returns d : length (year_returns d) = 12%nat.
Proof. destruct d as [[sp nq] tb]. reflexivity. Qed.

Lemma nth_year_returns d m :
  (m < 12)%nat ->
  nth m (year_returns d) (0, 0, 0)
  = (nth m (fst (fst d)) 0, nth m (snd (fst d)) 0, nth m (snd d) 0).
Proof.
  intros H. destruct d as [[sp nq] tb]. cbn [fst snd].
  do 12 (destruct m as [|m]; [reflexivity|]). lia.
Qed.

Lemma div12_step m : (12 <= m)%nat -> (m / 12 = S ((m - 12) / 12))%nat.
Proof.
  intros H. replace m with ((m - 12) + 1 * 12)%nat at 1 by lia.
  rewrite Nat.div_add by lia. lia.
Qed.

Lemma mod12_step m : (12 <= m)%nat -> (m mod 12 = (m - 12) mod 12)%nat.
Proof.
  intros H. replace m with ((m - 12) + 1 * 12)%nat at 1 by lia.
  apply Nat.Div0.mod_add.
Qed.

(** The concatenated yearly vectors, read at month [m], are the vectors of
    year [m / 12] read at [m mod 12]. *)
Lemma nth_flat_year_returns ds m :
  (m < 12 * length ds)%nat ->
  nth m (flat_map year_returns ds) (0, 0, 0) = month_returns ds m.
Proof.
  revert m. induction ds as [|d ds IH]; intros m Hm; [cbn in Hm; lia|].
  cbn [flat_map].
  destruct (Nat.lt_ge_cases m 12) as [Hlt|Hge].
  - rewrite app_nth1 by (rewrite length_year_returns; exact Hlt).
    rewrite nth_year_returns by exact Hlt.
    unfold month_returns.
    rewrite Nat.div_small, Nat.mod_small by exact Hlt.
    cbn [nth]. destruct d as [[sp nq] tb]. reflexivity.
  - rewrite app_nth2 by (rewrite length_year_returns; exact Hge).
    rewrite length_year_returns.
    rewrite IH by (cbn [length] in Hm; lia).
    unfold month_returns.
    rewrite (div12_step m Hge), (mod12_step m Hge).
    reflexivity.
Qed.

Lemma at_month_app_old (l : list Q) x m :
  (m < length l)%nat -> at_month (l ++ [x]) m = at_month l m.
Proof. intros H. unfold at_month. apply app_nth1. exact H. Qed.

Lemma at_month_app_new (l : list Q) x n :
  length l = n -> at_month (l ++ [x]) n = x.
Proof.
  intros <-. unfold at_month. rewrite app_nth2 by lia.
  rewrite Nat.sub_diag. reflexivity.
Qed.

Lemma py_last_at_month (l : list Q) n :
  length l = S n -> py_last l = at_month l n.
Proof.
  intros H. unfold py_last. rewrite last_lookup, H. cbn [Init.Nat.pred].
  rewrite lookup_at_month by lia. reflexivity.
Qed.

Lemma truncate_all k ib : all_lengths k ib -> truncate k ib = ib.
Proof.
  intros (H1 & H2 & H3 & H4 & H5 & H6 & H7).
  destruct ib; unfold truncate; cbn in *.
  rewrite !take_ge by lia. reflexivity.
Qed.

Lemma truncate_append k ib month sp nq tb hy em bl :
  all_lengths k ib ->
  truncate k (append_month ib month sp nq tb hy em bl) = ib.
Proof.
  intros (H1 & H2 & H3 & H4 & H5 & H6 & H7).
  destruct ib; unfold truncate, append_month; cbn in *.
  rewrite !take_app_length' by (symmetry; assumption). reflexivity.
Qed.

Lemma truncate_truncate j k ib :
  (j <= k)%nat -> truncate j (truncate k ib) = truncate j ib.
Proof.
  intros H. unfold truncate; cbn.
  rewrite !take_take, !Nat.min_l by exact H. reflexivity.
Qed.

(** The active mix of month [m] only reads the first [m + 1] months. *)
Lemma active_mix_truncate target enable threshold ib k m :
  (m < k)%nat ->
  active_mix target enable threshold (truncate k ib) m
  = active_mix target enable threshold ib m.
Proof.
  induction m as [|m IH]; intros H; cbn [active_mix];
    rewrite truncate_truncate by lia.
  - reflexivity.
  - rewrite IH by lia. reflexivity.
Qed.

Lemma active_mix_append target enable threshold ib k m month sp nq tb hy em bl :
  all_lengths k ib -> (m < k)%nat ->
  active_mix target enable threshold
    (append_month ib month sp nq tb hy em bl) m
  = active_mix target enable threshold ib m.
Proof.
  intros Hl Hm.
  rewrite <- (active_mix_truncate _ _ _ (append_month _ _ _ _ _ _ _ _) k m Hm).
  rewrite truncate_append by exact Hl. reflexivity.
Qed.

Lemma mix_before_append target enable threshold ib k m month sp nq tb hy em bl :
  all_lengths k ib -> (m <= k)%nat ->
  mix_before target enable threshold
    (append_month ib month sp nq tb hy em bl) m
  = mix_before target enable threshold ib m.
Proof.
  intros Hl Hm. destruct m as [|m]; [reflexivity|].
  cbn [mix_before]. apply (active_mix_append _ _ _ _ k); [exact Hl|lia].
Qed.

(** A month that has made its transition keeps it when later months are
    appended. *)
Lemma transition_append target enable threshold f rate ib k m r
    month sp nq tb hy em bl :
  all_lengths k ib -> (S m < k)%nat ->
  transition_holds target enable threshold f rate ib m r ->
  transition_holds target enable threshold f rate
    (append_month ib month sp nq tb hy em bl) m r.
Proof.
  intros Hl Hm. pose proof Hl as (H1 & H2 & H3 & H4 & H5 & H6 & H7).
  unfold transition_holds.
  rewrite (active_mix_append _ _ _ _ k) by (assumption || lia).
  cbn [append_month Month_Index SP500 NASDAQ100 TBILL_3M HYSA
         Emergency_fund Baseline].
  rewrite !at_month_app_old by lia.
  rewrite app_nth1 by lia. tauto_closed.
Qed.

Lemma last_month_index (l : list Z) n :
  length l = S n -> default 0%Z (last l) = nth n l 0%Z.
Proof.
  intros H. rewrite last_lookup, H. cbn [Init.Nat.pred].
  destruct (lookup_lt_is_Some_2 l n ltac:(lia)) as [x Hx].
  rewrite Hx. cbn. symmetry. apply nth_lookup_Some with (d := 0%Z) in Hx.
  exact Hx.
Qed.

Lemma active_mix_unfold target enable threshold ib m :
  active_mix target enable threshold ib m
  = quarterly_check target enable threshold (truncate (S m) ib)
      (mix_before target enable threshold ib m).
Proof. destruct m; reflexivity. Qed.

(** One month appends one entry to every series. *)
Lemma month_step_append target enable threshold f rate ib current_mix r :
  let month := default 0%Z (last (Month_Index ib)) in
  let mix := quarterly_check target enable threshold ib current_mix in
  fst (month_step target enable threshold f rate (ib, current_mix) r)
  = append_month ib (month + 1)
      ((py_last (SP500 ib) + f month * mix_SP500 mix) * (1 + fst (fst r)))
      ((py_last (NASDAQ100 ib) + f month * mix_NASDAQ mix) * (1 + snd (fst r)))
      ((py_last (TBILL_3M ib) + f month * mix_TBill mix) * (1 + snd r))
      ((py_last (HYSA ib) + f month * mix_HYSA mix) * (1 + rate))
      (py_last (Emergency_fund ib) * (1 + rate))
      ((py_last (Baseline ib) + f month) * (1 + rate)).
Proof. destruct r as [[r1 r2] r3]. reflexivity. Qed.

Lemma trajectory_inv_init target enable threshold f rate
    investment_start emergency_fund_start :
  trajectory_inv target enable threshold f rate []
    (initial_breakdown target investment_start emergency_fund_start, target).
Proof.
  unfold trajectory_inv; cbn [length fst snd].
  split; [|split; [|split]].
  - repeat split.
  - intros m Hm. assert (m = 0%nat) as -> by lia. reflexivity.
  - reflexivity.
  - intros m Hm. lia.
Qed.

Lemma trajectory_inv_step target enable threshold f rate rs st r :
  trajectory_inv target enable threshold f rate rs st ->
  trajectory_inv target enable threshold f rate (rs ++ [r])
    (month_step target enable threshold f rate st r).
Proof.
  destruct st as [ib current_mix].
  intros (Hl & Hidx & Hmix & Htr). cbn [fst snd] in *.
  set (n := length rs) in *.
  pose proof Hl as (H1 & H2 & H3 & H4 & H5 & H6 & H7).
  assert (Hmonth : default 0%Z (last (Month_Index ib)) = Z.of_nat n).
  { rewrite (last_month_index _ n H1). apply Hidx. lia. }
  assert (Hlen : length (rs ++ [r]) = S n)
    by (rewrite length_app; cbn [length]; lia).
  unfold trajectory_inv. rewrite Hlen.
  rewrite month_step_mix, month_step_append. cbv zeta.
  set (mix := quarterly_check target enable threshold ib current_mix).
  set (ib' := append_month ib _ _ _ _ _ _ _).
  assert (Hactive : active_mix target enable threshold ib' n = mix).
  { rewrite active_mix_unfold. unfold ib'. rewrite truncate_append by exact Hl.
    rewrite (mix_before_append _ _ _ _ (S n)) by (assumption || lia).
    rewrite <- Hmix. reflexivity. }
  split; [|split; [|split]].
  - unfold ib', append_month, all_lengths; cbn.
    rewrite !length_app; cbn [length]. repeat split; lia.
  - intros m Hm. unfold ib', append_month; cbn [Month_Index].
    destruct (Nat.eq_dec m (S n)) as [->|Hne].
    + rewrite app_nth2 by lia. rewrite H1, Nat.sub_diag. cbn [nth].
      rewrite Hmonth. lia.
    + rewrite app_nth1 by lia. apply Hidx. lia.
  - symmetry. exact Hactive.
  - intros m Hm.
    destruct (Nat.eq_dec m n) as [->|Hne].
    + rewrite app_nth2 by (fold n; lia). fold n.
      rewrite Nat.sub_diag. cbn [nth].
      unfold transition_holds. rewrite Hactive.
      unfold ib', append_month;
        cbn [Month_Index SP500 NASDAQ100 TBILL_3M HYSA Emergency_fund Baseline].
      rewrite !(at_month_app_new _ _ (S n)) by assumption.
      rewrite !(at_month_app_old _ _ n) by lia.
      rewrite app_nth1 by lia.
      rewrite !(py_last_at_month _ n) by assumption.
      rewrite Hmonth.
      split; [apply Hidx; lia|]. repeat split.
    + rewrite app_nth1 by (fold n; lia).
      apply (transition_append _ _ _ _ _ _ (S n)); [exact Hl|lia|].
      apply Htr. lia.
Qed.

(** After any list of monthly returns the engine's state satisfies the
    trajectory invariant. *)
Lemma trajectory_inv_fold target enable threshold f rate
    investment_start emergency_fund_start rs :
  trajectory_inv target enable threshold f rate rs
    (fold_left (month_step target enable threshold f rate) rs
       (initial_breakdown target investment_start emergency_fund_start,
        target)).
Proof.
  induction rs as [|r rs IH] using rev_ind.
  - apply trajectory_inv_init.
  - rewrite fold_left_app. cbn [fold_left].
    apply trajectory_inv_step. exact IH.
Qed.

(** ** The sampler *)

Lemma np_random_normal_some loc scale g :
  0 <= scale ->
  np_random_normal loc scale g
  = Some (loc + scale * fst (standard_normal g), snd (standard_normal g)).
Proof.
  intros H. unfold np_random_normal.
  apply Qgtb_false in H. rewrite H.
  destruct (standard_normal g); reflexivity.
Qed.

(** With a scale that is not negative the loop appends [n] values, each the
    average plus a scaled draw. *)
Lemma monthly_return_loop_spec n avg std acc g :
  0 <= std ->
  exists new g',
    monthly_return_loop n avg std acc g = Some (acc ++ new, g') /\
    length new = n /\
    Forall (fun r => exists z, r = avg + (0 + std * z)) new.
Proof.
  intros Hstd. revert acc g.
  induction n as [|n IH]; intros acc g.
  - exists [], g. rewrite app_nil_r. repeat split. constructor.
  - cbn [monthly_return_loop].
    rewrite np_random_normal_some by exact Hstd.
    destruct (IH (acc ++ [avg + (0 + std * fst (standard_normal g))])
                (snd (standard_normal g))) as (new & g' & Hrun & Hlen & Hall).
    exists ((avg + (0 + std * fst (standard_normal g))) :: new), g'.
    split; [|split].
    + rewrite Hrun, <- app_assoc. reflexivity.
    + cbn [length]. lia.
    + constructor; [eexists; reflexivity|exact Hall].
Qed.

Lemma calculate_monthly_return_spec yearly_return std g :
  0 <= std ->
  exists rs g',
    calculate_monthly_return yearly_return std g = Some (rs, g') /\
    length rs = 12%nat /\
    Forall (fun r => exists z,
                r = pow (1 + yearly_return) (1 / 12) - 1 + (0 + std * z)) rs.
Proof.
  intros Hstd. unfold calculate_monthly_return.
  destruct (monthly_return_loop_spec 12
              (pow (1 + yearly_return) (1 / 12) - 1) std [] g Hstd)
    as (new & g' & Hrun & Hlen & Hall).
  exists new, g'. rewrite Hrun. repeat split; assumption.
Qed.

Lemma sample_year_some SP500_std NASDAQ_std T_Bills_std hs g year_idx :
  complete15 hs -> 0 <= SP500_std -> 0 <= NASDAQ_std -> 0 <= T_Bills_std ->
  (year_idx < 15)%nat ->
  exists d g',
    sample_year SP500_std NASDAQ_std T_Bills_std hs g year_idx = Some (d, g').
Proof.
  intros (sp & nq & tb & Hsp & Hnq & Htb & Lsp & Lnq & Ltb) H1 H2 H3 Hy.
  unfold sample_year. rewrite Hsp, Hnq, Htb. cbn [mbind option_bind].
  destruct (lookup_lt_is_Some_2 sp year_idx ltac:(lia)) as [y1 ->].
  destruct (lookup_lt_is_Some_2 nq year_idx ltac:(lia)) as [y2 ->].
  destruct (lookup_lt_is_Some_2 tb year_idx ltac:(lia)) as [y3 ->].
  cbn [mbind option_bind].
  destruct (calculate_monthly_return_spec (y1 / 100) SP500_std g H1)
    as (r1 & g1 & -> & _).
  cbn [mbind option_bind].
  destruct (calculate_monthly_return_spec (y2 / 100) NASDAQ_std g1 H2)
    as (r2 & g2 & -> & _).
  cbn [mbind option_bind].
  destruct (calculate_monthly_return_spec (y3 / 100) T_Bills_std g2 H3)
    as (r3 & g3 & -> & _).
  cbn [mbind option_bind].
  eexists _, _. reflexivity.
Qed.

Lemma sample_years_some SP500_std NASDAQ_std T_Bills_std hs years g :
  complete15 hs -> 0 <= SP500_std -> 0 <= NASDAQ_std -> 0 <= T_Bills_std ->
  Forall (fun year_idx => (year_idx < 15)%nat) years ->
  exists ds g',
    sample_years SP500_std NASDAQ_std T_Bills_std hs years g = Some (ds, g')
    /\ length ds = length years.
Proof.
  intros Hc H1 H2 H3 Hy. revert g.
  induction Hy as [|y years Hlt _ IH]; intros g.
  - exists [], g. split; reflexivity.
  - cbn [sample_years].
    destruct (sample_year_some _ _ _ hs g y Hc H1 H2 H3 Hlt) as (d & g1 & ->).
    cbn [mbind option_bind].
    destruct (IH g1) as (ds & g2 & -> & Hlen).
    cbn [mbind option_bind].
    exists (d :: ds), g2. split; [reflexivity|]. cbn [length]. lia.
Qed.

(** ** The engine's loops, flattened *)

Lemma year_fold target enable threshold f rate st sp nq tb :
  fold_left
    (fun st month_idx =>
       month_step target enable threshold f rate st
         (nth month_idx sp 0, nth month_idx nq 0, nth month_idx tb 0))
    (seq 0 12) st
  = fold_left (month_step target enable threshold f rate)
      (year_returns (sp, nq, tb)) st.
Proof. unfold year_returns. cbn [seq map fold_left]. reflexivity. Qed.

(** The fifteen-year loop draws its returns year by year and applies the
    month step to them in order. *)
Lemma for_each_year_body target enable threshold f rate
    SP500_std NASDAQ_std T_Bills_std hs years st g :
  for_each (year_body target enable threshold f rate
              SP500_std NASDAQ_std T_Bills_std hs) years (st, g)
  = '(ds, g') ← sample_years SP500_std NASDAQ_std T_Bills_std hs years g;
    Some (fold_left (month_step target enable threshold f rate)
            (flat_map year_returns ds) st, g').
Proof.
  revert st g. induction years as [|y years IH]; intros st g; [reflexivity|].
  cbn [for_each sample_years]. unfold year_body.
  destruct (sample_year SP500_std NASDAQ_std T_Bills_std hs g y)
    as [[[[sp nq] tb] g1]|]; cbn [mbind option_bind]; [|reflexivity].
  rewrite year_fold, IH.
  destruct (sample_years SP500_std NASDAQ_std T_Bills_std hs years g1)
    as [[ds g2]|]; cbn [mbind option_bind]; [|reflexivity].
  cbn [flat_map]. rewrite fold_left_app. reflexivity.
Qed.

Lemma length_flat_year_returns ds :
  length (flat_map year_returns ds) = (12 * length ds)%nat.
Proof.
  induction ds as [|d ds IH]; [reflexivity|].
  cbn [flat_map length]. rewrite length_app, length_year_returns, IH. lia.
Qed.

(** C3.  A run over a complete window with non-negative volatilities
    returns a trajectory of 181 months, and at every month m in 0..179 --
    with the month's returns read from the vectors sampled for year m / 12
    at index m mod 12, the contribution read at m, and the mix the one the
    quarterly checks have left active -- each volatile balance becomes
    (previous + contribution x mix share) x (1 + sampled return), the HYSA
    balance the same at the cash monthly rate, Baseline (previous + the full
    contribution) x (1 + cash rate), and the emergency fund previous x
    (1 + cash rate). *)
Theorem engine_month_transition investment_mix investment_start
    emergency_fund_start enable_rebalancing rebalancing_threshold
    contribution_function HYSA_monthly_returns
    SP500_std NASDAQ_std T_Bills_std hs g :
  complete15 hs -> 0 <= SP500_std -> 0 <= NASDAQ_std -> 0 <= T_Bills_std ->
  exists investment_breakdown g' ds,
    run_pair investment_mix investment_start emergency_fund_start
      enable_rebalancing rebalancing_threshold contribution_function
      HYSA_monthly_returns SP500_std NASDAQ_std T_Bills_std hs g
    = Some (investment_breakdown, g') /\
    sample_years SP500_std NASDAQ_std T_Bills_std hs (seq 0 15) g
    = Some (ds, g') /\
    all_lengths 181 investment_breakdown /\
    forall m, (m < 180)%nat ->
      transition_holds investment_mix enable_rebalancing
        rebalancing_threshold contribution_function HYSA_monthly_returns
        investment_breakdown m (month_returns ds m).
Proof.
  intros Hc H1 H2 H3.
  destruct (sample_years_some SP500_std NASDAQ_std T_Bills_std hs (seq 0 15) g
              Hc H1 H2 H3) as (ds & g' & Hs & Hlen).
  { apply Forall_forall. intros y Hy. apply elem_of_seq in Hy. lia. }
  cbn [length seq] in Hlen.
  unfold run_pair. rewrite for_each_year_body, Hs. cbn [mbind option_bind].
  pose proof (trajectory_inv_fold investment_mix enable_rebalancing
                rebalancing_threshold contribution_function
                HYSA_monthly_returns investment_start emergency_fund_start
                (flat_map year_returns ds)) as (Hl & _ & _ & Htr).
  rewrite length_flat_year_returns, Hlen in Hl, Htr.
  eexists _, g', ds. split; [reflexivity|]. split; [reflexivity|].
  split; [exact Hl|].
  intros m Hm. rewrite <- nth_flat_year_returns by lia.
  apply Htr. lia.
Qed.

(** ** Equal amounts give equal runs *)

Lemma Qgtb_eq a a' b b' : a == a' -> b == b' -> Qgtb a b = Qgtb a' b'.
Proof. intros Ha Hb. unfold Qgtb. rewrite Ha, Hb. reflexivity. Qed.

Lemma mix_eq_refl m : mix_eq m m.
Proof. unfold mix_eq. split; [|split; [|split]]; reflexivity. Qed.

Lemma series_eq_refl l : series_eq l l.
Proof. induction l; constructor; [reflexivity|assumption]. Qed.

Lemma breakdown_eq_refl ib : breakdown_eq ib ib.
Proof.
  unfold breakdown_eq. repeat split; try reflexivity; apply series_eq_refl.
Qed.

Lemma py_last_eq l1 l2 : series_eq l1 l2 -> py_last l1 == py_last l2.
Proof.
  intros H. unfold py_last.
  destruct (Forall2_last _ _ _ H) as [x y Hxy|]; [exact Hxy|reflexivity].
Qed.

Lemma total_value_eq a b :
  breakdown_eq a b -> total_value a == total_value b.
Proof.
  intros (_ & H1 & H2 & H3 & H4 & _). unfold total_value.
  rewrite (py_last_eq _ _ H1), (py_last_eq _ _ H2), (py_last_eq _ _ H3),
    (py_last_eq _ _ H4). reflexivity.
Qed.

Lemma current_allocation_eq a b :
  breakdown_eq a b -> mix_eq (current_allocation a) (current_allocation b).
Proof.
  intros H. pose proof (total_value_eq a b H) as Hv.
  destruct H as (_ & H1 & H2 & H3 & H4 & _).
  unfold mix_eq, current_allocation; cbn.
  rewrite (py_last_eq _ _ H1), (py_last_eq _ _ H2), (py_last_eq _ _ H3),
    (py_last_eq _ _ H4), Hv.
  split; [|split; [|split]]; reflexivity.
Qed.

Lemma needs_rebalancing_eq target a b threshold :
  mix_eq a b ->
  needs_rebalancing target a threshold = needs_rebalancing target b threshold.
Proof.
  intros (H1 & H2 & H3 & H4). unfold needs_rebalancing.
  rewrite (Qgtb_eq (Qabs (mix_SP500 a - mix_SP500 target))
             (Qabs (mix_SP500 b - mix_SP500 target)) threshold threshold)
    by (rewrite ?H1; reflexivity).
  rewrite (Qgtb_eq (Qabs (mix_NASDAQ a - mix_NASDAQ target))
             (Qabs (mix_NASDAQ b - mix_NASDAQ target)) threshold threshold)
    by (rewrite ?H2; reflexivity).
  rewrite (Qgtb_eq (Qabs (mix_TBill a - mix_TBill target))
             (Qabs (mix_TBill b - mix_TBill target)) threshold threshold)
    by (rewrite ?H3; reflexivity).
  rewrite (Qgtb_eq (Qabs (mix_HYSA a - mix_HYSA target))
             (Qabs (mix_HYSA b - mix_HYSA target)) threshold threshold)
    by (rewrite ?H4; reflexivity).
  reflexivity.
Qed.

Lemma adjustments_eq target a b :
  mix_eq a b -> mix_eq (adjustments target a) (adjustments target b).
Proof.
  intros (H1 & H2 & H3 & H4). unfold mix_eq, adjustments, mix_map2; cbn.
  rewrite H1, H2, H3, H4. split; [|split; [|split]]; reflexivity.
Qed.

Lemma total_adjustment_eq a b :
  mix_eq a b -> total_adjustment a == total_adjustment b.
Proof.
  intros (H1 & H2 & H3 & H4).
  unfold total_adjustment, mix_map. unfold mix_sum; cbn.
  rewrite H1, H2, H3, H4. reflexivity.
Qed.

Lemma adjusted_mix_eq target a b :
  mix_eq a b -> mix_eq (adjusted_mix target a) (adjusted_mix target b).
Proof.
  intros H. pose proof (total_adjustment_eq a b H) as HT.
  destruct H as (H1 & H2 & H3 & H4).
  unfold mix_eq, adjusted_mix, mix_map2; cbn.
  destruct (Qgtb (mix_SP500 a) 0), (Qgtb (mix_SP500 b) 0),
    (Qgtb (mix_NASDAQ a) 0), (Qgtb (mix_NASDAQ b) 0),
    (Qgtb (mix_TBill a) 0), (Qgtb (mix_TBill b) 0),
    (Qgtb (mix_HYSA a) 0), (Qgtb (mix_HYSA b) 0);
    rewrite H1, H2, H3, H4, HT; (split; [|split; [|split]]); reflexivity.
Qed.

Lemma mix_sum_eq a b : mix_eq a b -> mix_sum a == mix_sum b.
Proof.
  intros (H1 & H2 & H3 & H4). unfold mix_sum.
  rewrite H1, H2, H3, H4. reflexivity.
Qed.

Lemma renormalise_eq a b :
  mix_eq a b -> mix_eq (renormalise a) (renormalise b).
Proof.
  intros H. pose proof (mix_sum_eq a b H) as Hs. unfold renormalise.
  rewrite (Qgtb_eq (mix_sum a) (mix_sum b) 0 0 Hs) by reflexivity.
  destruct (Qgtb (mix_sum b) 0); [|exact H].
  destruct H as (H1 & H2 & H3 & H4). unfold mix_eq, mix_map; cbn.
  rewrite H1, H2, H3, H4, Hs. split; [|split; [|split]]; reflexivity.
Qed.

Lemma quarterly_check_eq target enable threshold ib1 ib2 m1 m2 :
  breakdown_eq ib1 ib2 -> mix_eq m1 m2 ->
  mix_eq (quarterly_check target enable threshold ib1 m1)
         (quarterly_check target enable threshold ib2 m2).
Proof.
  intros Hib Hm. unfold quarterly_check.
  pose proof Hib as (Hmonth & _). rewrite Hmonth.
  destruct (is_checkpoint enable _); [|exact Hm].
  unfold rebalance.
  rewrite (Qgtb_eq (total_value ib1) (total_value ib2) 0 0)
    by (try apply total_value_eq; try reflexivity; exact Hib).
  destruct (Qgtb (total_value ib2) 0); [|exact Hm].
  pose proof (current_allocation_eq ib1 ib2 Hib) as Ha.
  rewrite (needs_rebalancing_eq target _ _ threshold Ha).
  destruct (needs_rebalancing _ _ _); [|exact Hm].
  rewrite (Qgtb_eq _ (total_adjustment
                        (adjustments target (current_allocation ib2))) 0 0)
    by (try reflexivity; apply total_adjustment_eq, adjustments_eq; exact Ha).
  destruct (Qgtb _ 0); [|exact Hm].
  apply renormalise_eq, adjusted_mix_eq, adjustments_eq. exact Ha.
Qed.

Lemma series_eq_snoc l1 l2 x y :
  series_eq l1 l2 -> x == y -> series_eq (l1 ++ [x]) (l2 ++ [y]).
Proof.
  intros Hl Hx. apply Forall2_app; [exact Hl|]. constructor; [exact Hx|].
  constructor.
Qed.

(** The month step sends equal states, rates and returns to equal states. *)
Lemma month_step_eq target enable threshold f rate1 rate2 s1 s2 r1 r2 :
  rate1 == rate2 -> state_eq s1 s2 -> returns_eq r1 r2 ->
  state_eq (month_step target enable threshold f rate1 s1 r1)
           (month_step target enable threshold f rate2 s2 r2).
Proof.
  destruct s1 as [ib1 m1], s2 as [ib2 m2].
  destruct r1 as [[a1 b1] c1], r2 as [[a2 b2] c2].
  intros Hr [Hib Hm] (Ha & Hb & Hc). cbn [fst snd] in *.
  pose proof (quarterly_check_eq target enable threshold _ _ _ _ Hib Hm)
    as (Q1 & Q2 & Q3 & Q4).
  pose proof Hib as (Hmonth & H1 & H2 & H3 & H4 & H5 & H6).
  unfold month_step. rewrite Hmonth.
  split; cbn [fst snd].
  - unfold breakdown_eq;
      cbn [Month_Index SP500 NASDAQ100 TBILL_3M HYSA Emergency_fund Baseline].
    split; [reflexivity|].
    repeat apply conj; apply series_eq_snoc; try assumption.
    + rewrite (py_last_eq _ _ H1), Q1, Ha. reflexivity.
    + rewrite (py_last_eq _ _ H2), Q2, Hb. reflexivity.
    + rewrite (py_last_eq _ _ H3), Q3, Hc. reflexivity.
    + rewrite (py_last_eq _ _ H4), Q4, Hr. reflexivity.
    + rewrite (py_last_eq _ _ H5), Hr. reflexivity.
    + rewrite (py_last_eq _ _ H6), Hr. reflexivity.
  - split; [|split; [|split]]; assumption.
Qed.

Lemma fold_month_step_eq target enable threshold f rate1 rate2 rs1 rs2 :
  rate1 == rate2 -> Forall2 returns_eq rs1 rs2 ->
  forall s1 s2, state_eq s1 s2 ->
    state_eq (fold_left (month_step target enable threshold f rate1) rs1 s1)
             (fold_left (month_step target enable threshold f rate2) rs2 s2).
Proof.
  intros Hr Hrs. induction Hrs as [|r1 r2 rs1 rs2 Hr12 _ IH]; intros s1 s2 Hs.
  - exact Hs.
  - cbn [fold_left]. apply IH. apply month_step_eq; assumption.
Qed.

(** ** Zero volatility *)

Lemma calculate_monthly_return_zero yearly_return g :
  exists rs g',
    calculate_monthly_return yearly_return 0 g = Some (rs, g') /\
    length rs = 12%nat /\
    Forall (fun r => r == pow (1 + yearly_return) (1 / 12) - 1) rs.
Proof.
  destruct (calculate_monthly_return_spec yearly_return 0 g)
    as (rs & g' & Hrun & Hlen & Hall); [lra|].
  exists rs, g'. split; [exact Hrun|]. split; [exact Hlen|].
  apply (Forall_impl _ _ _ Hall). intros r [z ->]. ring.
Qed.

Lemma constant_series_eq c l1 l2 :
  length l1 = length l2 ->
  Forall (fun r => r == c) l1 -> Forall (fun r => r == c) l2 ->
  series_eq l1 l2.
Proof.
  revert l2. induction l1 as [|x l1 IH]; intros [|y l2] Hlen H1 H2;
    try discriminate Hlen; [constructor|].
  apply Forall_cons_1 in H1 as [Hx H1]. apply Forall_cons_1 in H2 as [Hy H2].
  constructor; [rewrite Hx, Hy; reflexivity|].
  apply IH; [cbn [length] in Hlen; lia|assumption|assumption].
Qed.

Lemma calculate_monthly_return_zero_eq yearly_return g1 g2 :
  exists rs1 g1' rs2 g2',
    calculate_monthly_return yearly_return 0 g1 = Some (rs1, g1') /\
    calculate_monthly_return yearly_return 0 g2 = Some (rs2, g2') /\
    series_eq rs1 rs2.
Proof.
  destruct (calculate_monthly_return_zero yearly_return g1)
    as (rs1 & g1' & R1 & L1 & F1).
  destruct (calculate_monthly_return_zero yearly_return g2)
    as (rs2 & g2' & R2 & L2 & F2).
  exists rs1, g1', rs2, g2'. split; [exact R1|]. split; [exact R2|].
  apply (constant_series_eq (pow (1 + yearly_return) (1 / 12) - 1));
    [lia|assumption|assumption].
Qed.

Lemma sample_year_zero hs g1 g2 year_idx :
  option_Forall2 year_eq
    (fst <$> sample_year 0 0 0 hs g1 year_idx)
    (fst <$> sample_year 0 0 0 hs g2 year_idx).
Proof.
  unfold sample_year.
  destruct (seq_SP500 hs) as [sp|]; cbn [mbind option_bind];
    [|constructor].
  destruct (sp !! year_idx) as [y1|]; cbn [mbind option_bind];
    [|constructor].
  destruct (calculate_monthly_return_zero_eq (y1 / 100) g1 g2)
    as (a1 & g1a & a2 & g2a & -> & -> & Ha).
  cbn [mbind option_bind].
  destruct (seq_NASDAQ100 hs) as [nq|]; cbn [mbind option_bind];
    [|constructor].
  destruct (nq !! year_idx) as [y2|]; cbn [mbind option_bind];
    [|constructor].
  destruct (calculate_monthly_return_zero_eq (y2 / 100) g1a g2a)
    as (b1 & g1b & b2 & g2b & -> & -> & Hb).
  cbn [mbind option_bind].
  destruct (seq_TBILL_3M hs) as [tb|]; cbn [mbind option_bind];
    [|constructor].
  destruct (tb !! year_idx) as [y3|]; cbn [mbind option_bind];
    [|constructor].
  destruct (calculate_monthly_return_zero_eq (y3 / 100) g1b g2b)
    as (c1 & g1c & c2 & g2c & -> & -> & Hc).
  cbn. constructor. split; [|split]; assumption.
Qed.

Lemma sample_years_zero hs years g1 g2 :
  option_Forall2 (Forall2 year_eq)
    (fst <$> sample_years 0 0 0 hs years g1)
    (fst <$> sample_years 0 0 0 hs years g2).
Proof.
  revert g1 g2. induction years as [|y years IH]; intros g1 g2.
  - cbn. constructor. constructor.
  - cbn [sample_years].
    pose proof (sample_year_zero hs g1 g2 y) as Hy.
    destruct (sample_year 0 0 0 hs g1 y) as [[d1 g1']|],
      (sample_year 0 0 0 hs g2 y) as [[d2 g2']|];
      cbn in Hy; inversion Hy as [? ? Hd|]; subst;
      cbn [mbind option_bind]; [|constructor].
    pose proof (IH g1' g2') as Hrest.
    destruct (sample_years 0 0 0 hs years g1') as [[ds1 g1'']|],
      (sample_years 0 0 0 hs years g2') as [[ds2 g2'']|];
      cbn in Hrest; inversion Hrest as [? ? Hds|]; subst;
      cbn; constructor.
    constructor; assumption.
Qed.

Lemma nth_series_eq l1 l2 i :
  series_eq l1 l2 -> nth i l1 0 == nth i l2 0.
Proof.
  intros H. revert i. induction H as [|x y l1 l2 Hxy _ IH]; intros [|i];
    cbn [nth]; try reflexivity; [exact Hxy|apply IH].
Qed.

Lemma year_returns_eq d1 d2 :
  year_eq d1 d2 -> Forall2 returns_eq (year_returns d1) (year_returns d2).
Proof.
  destruct d1 as [[sp1 nq1] tb1], d2 as [[sp2 nq2] tb2].
  intros (H1 & H2 & H3). cbn [fst snd] in *. unfold year_returns.
  generalize (seq 0 12). intros l.
  induction l as [|i l IH]; cbn [map]; constructor; [|exact IH].
  split; [|split]; cbn [fst snd]; apply nth_series_eq; assumption.
Qed.

Lemma flat_year_returns_eq ds1 ds2 :
  Forall2 year_eq ds1 ds2 ->
  Forall2 returns_eq (flat_map year_returns ds1) (flat_map year_returns ds2).
Proof.
  intros H. induction H as [|d1 d2 ds1 ds2 Hd _ IH]; [constructor|].
  cbn [flat_map]. apply Forall2_app; [apply year_returns_eq; exact Hd|exact IH].
Qed.

(** With no volatility a run does not depend on the random state. *)
Lemma run_pair_zero investment_mix investment_start emergency_fund_start
    enable threshold f rate1 rate2 hs g1 g2 :
  rate1 == rate2 ->
  option_Forall2 breakdown_eq
    (fst <$> run_pair investment_mix investment_start emergency_fund_start
               enable threshold f rate1 0 0 0 hs g1)
    (fst <$> run_pair investment_mix investment_start emergency_fund_start
               enable threshold f rate2 0 0 0 hs g2).
Proof.
  intros Hr. unfold run_pair. rewrite !for_each_year_body.
  pose proof (sample_years_zero hs (seq 0 15) g1 g2) as Hs.
  destruct (sample_years 0 0 0 hs (seq 0 15) g1) as [[ds1 g1']|],
    (sample_years 0 0 0 hs (seq 0 15) g2) as [[ds2 g2']|];
    cbn in Hs; inversion Hs as [? ? Hds|]; subst; cbn; constructor.
  apply fold_month_step_eq;
    [exact Hr|apply flat_year_returns_eq; exact Hds|].
  split; [apply breakdown_eq_refl|apply mix_eq_refl].
Qed.

Lemma run_pair_some investment_mix investment_start emergency_fund_start
    enable threshold f rate SP500_std NASDAQ_std T_Bills_std hs g :
  complete15 hs -> 0 <= SP500_std -> 0 <= NASDAQ_std -> 0 <= T_Bills_std ->
  is_Some (run_pair investment_mix investment_start emergency_fund_start
             enable threshold f rate SP500_std NASDAQ_std T_Bills_std hs g).
Proof.
  intros Hc H1 H2 H3.
  destruct (sample_years_some SP500_std NASDAQ_std T_Bills_std hs (seq 0 15) g
              Hc H1 H2 H3) as (ds & g' & Hs & _).
  { apply Forall_forall. intros y Hy. apply elem_of_seq in Hy. lia. }
  unfold run_pair. rewrite for_each_year_body, Hs. cbn. eexists. reflexivity.
Qed.

(** ** Loops that may raise *)

Lemma for_each_rel {St1 St2 A : Type} (R : St1 -> St2 -> Prop)
    (body1 : St1 -> A -> option St1) (body2 : St2 -> A -> option St2) l :
  (forall s1 s2 x, R s1 s2 -> option_Forall2 R (body1 s1 x) (body2 s2 x)) ->
  forall s1 s2, R s1 s2 ->
    option_Forall2 R (for_each body1 l s1) (for_each body2 l s2).
Proof.
  intros Hbody. induction l as [|x l IH]; intros s1 s2 Hs.
  - constructor. exact Hs.
  - cbn [for_each].
    destruct (Hbody s1 s2 x Hs) as [s1' s2' Hs'|]; [apply IH; exact Hs'|].
    constructor.
Qed.

Lemma for_each_some {St A : Type} (body : St -> A -> option St) l :
  Forall (fun x => forall s, is_Some (body s x)) l ->
  forall s, is_Some (for_each body l s).
Proof.
  intros H. induction H as [|x l Hx _ IH]; intros s.
  - eexists. reflexivity.
  - cbn [for_each]. destruct (Hx s) as [s' ->]. apply IH.
Qed.

Lemma series_eq_head l1 l2 :
  series_eq l1 l2 -> option_Forall2 Qeq (head l1) (head l2).
Proof. intros [|x y l1' l2' Hxy _]; constructor. exact Hxy. Qed.

Lemma complete15_imap (j : nat -> Z) complete_sequences :
  Forall complete15 complete_sequences ->
  Forall (fun p => complete15 (snd p))
         (imap (fun i hs => (j i, hs)) complete_sequences).
Proof.
  intros H. revert j. induction H as [|hs l Hhs _ IH]; intros j.
  - constructor.
  - rewrite imap_cons. constructor; [exact Hhs|].
    apply (IH (fun i => j (S i))).
Qed.

(** C6.  With a zero standard deviation [calculate_monthly_return] returns,
    from any random state, twelve values each equal to
    (1 + yearly_return)^(1/12) - 1.  Hence with the three volatilities at 0
    two calls of [run_investment_simulation] on the same inputs, started
    from any two random states, either both raise or return result sets
    with the same metadata and, run by run and month by month, the same
    balances; and they do return when every window is complete. *)
Theorem zero_volatility_is_deterministic :
  (forall yearly_return g,
      exists rs g',
        calculate_monthly_return yearly_return 0 g = Some (rs, g') /\
        length rs = 12%nat /\
        Forall (fun r => r == pow (1 + yearly_return) (1 / 12) - 1) rs)
  /\ (forall investment_mix investment_start emergency_fund_start
             complete_sequences total_iterations hysa_apy
             contribution_function enable_rebalancing rebalancing_threshold
             g1 g2,
         option_Forall2 results_eq
           (fst <$> run_investment_simulation investment_mix investment_start
                      emergency_fund_start complete_sequences
                      total_iterations hysa_apy 0 0 0 contribution_function
                      enable_rebalancing rebalancing_threshold g1)
           (fst <$> run_investment_simulation investment_mix investment_start
                      emergency_fund_start complete_sequences
                      total_iterations hysa_apy 0 0 0 contribution_function
                      enable_rebalancing rebalancing_threshold g2)
         /\ (Forall complete15 complete_sequences ->
             is_Some (run_investment_simulation investment_mix
                        investment_start emergency_fund_start
                        complete_sequences total_iterations hysa_apy 0 0 0
                        contribution_function enable_rebalancing
                        rebalancing_threshold g1))).
Proof.
  split; [exact calculate_monthly_return_zero|].
  intros investment_mix investment_start emergency_fund_start
    complete_sequences total_iterations hysa_apy contribution_function
    enable_rebalancing rebalancing_threshold g1 g2.
  unfold run_investment_simulation. split.
  - destruct (calculate_monthly_return_zero_eq hysa_apy g1 g2)
      as (rs1 & g1' & rs2 & g2' & -> & -> & Hrs).
    cbn [mbind option_bind].
    destruct (series_eq_head _ _ Hrs) as [rate1 rate2 Hrate|];
      cbn [mbind option_bind]; [|constructor].
    match goal with
    | |- option_Forall2 _ (fst <$> ?o1) (fst <$> ?o2) =>
        assert (H : option_Forall2
                      (fun p1 p2 : SimulationResults * RandomState =>
                         results_eq (fst p1) (fst p2)) o1 o2)
    end.
    { apply for_each_rel.
      - intros s1 s2 [seq_idx hs] Hs. apply for_each_rel; [|exact Hs].
        intros [r1 ga] [r2 gb] iteration_no Hr. cbn [fst] in Hr.
        pose proof (run_pair_zero investment_mix investment_start
                      emergency_fund_start enable_rebalancing
                      rebalancing_threshold contribution_function
                      rate1 rate2 hs ga gb Hrate) as Hp.
        destruct (run_pair _ _ _ _ _ _ rate1 _ _ _ _ ga) as [[ib1 ga']|],
          (run_pair _ _ _ _ _ _ rate2 _ _ _ _ gb) as [[ib2 gb']|];
          cbn in Hp; inversion Hp as [? ? Hib|]; subst;
          cbn [mbind option_bind]; constructor.
        destruct Hr as (E1 & E2 & E3 & E4 & E5).
        unfold results_eq; cbn. rewrite E1, E2, E3, E4.
        repeat split. apply Forall2_app; [exact E5|].
        constructor; [exact Hib|constructor].
      - cbn. repeat split. constructor. }
    destruct H as [[r1 ga] [r2 gb] H|]; cbn; constructor. exact H.
  - intros Hc.
    destruct (calculate_monthly_return_zero hysa_apy g1)
      as (rs & g' & -> & Hlen & _).
    cbn [mbind option_bind].
    destruct rs as [|rate rs]; [discriminate Hlen|].
    cbn [head mbind option_bind].
    apply for_each_some.
    apply (Forall_impl _ _ _ (complete15_imap _ _ Hc)).
    intros [seq_idx hs] Hhs acc. cbn [snd] in Hhs.
    apply for_each_some. apply Forall_forall. intros iteration_no _ [r g].
    destruct (run_pair_some investment_mix investment_start
                emergency_fund_start enable_rebalancing rebalancing_threshold
                contribution_function rate 0 0 0 hs g Hhs)
      as [[ib ga] ->]; try lra.
    cbn. eexists. reflexivity.
Qed.

(** * Further properties of the code *)

(** ** HistoricalSequenceLibrary: what a window holds *)

Lemma elem_of_sorted_keys (d : gmap Z Q) year :
  year ∈ sorted_keys d <-> is_Some (d !! year).
Proof.
  unfold sorted_keys. rewrite merge_sort_Permutation.
  rewrite list_elem_of_fmap. split.
  - intros ([k v] & -> & Hin). apply elem_of_map_to_list in Hin.
    cbn. eexists. exact Hin.
  - intros [v Hv]. exists (year, v). split; [reflexivity|].
    apply elem_of_map_to_list. exact Hv.
Qed.

Lemma has_all_true (d : gmap Z Q) start_year end_year :
  has_all (sorted_keys d) start_year end_year = true <->
  forall year, (start_year <= year <= end_year)%Z -> is_Some (d !! year).
Proof.
  unfold has_all, py_range. rewrite forallb_forall. split.
  - intros H year Hy. apply elem_of_sorted_keys.
    assert (Hin : In year (seqZ start_year (end_year + 1 - start_year))).
    { apply (proj1 (list_elem_of_In _ _)), elem_of_seqZ. lia. }
    apply (bool_decide_eq_true_1 _ (H year Hin)).
  - intros H year Hin. apply (proj2 (list_elem_of_In _ _)), elem_of_seqZ in Hin.
    apply bool_decide_eq_true_2, elem_of_sorted_keys, H. lia.
Qed.

Lemma has_all_false (d : gmap Z Q) start_year end_year :
  has_all (sorted_keys d) start_year end_year = false <->
  exists year, (start_year <= year <= end_year)%Z /\ d !! year = None.
Proof.
  split.
  - intros H. unfold has_all, py_range in H.
    apply not_true_iff_false in H.
    rewrite forallb_forall in H.
    destruct (decide (Exists (fun year => d !! year = None)
                        (seqZ start_year (end_year + 1 - start_year))))
      as [Hex|Hnex].
    + apply Exists_exists in Hex as (year & Hin & Hnone).
      apply elem_of_seqZ in Hin. exists year. split; [lia|exact Hnone].
    + exfalso. apply H. intros year Hin.
      apply bool_decide_eq_true_2, elem_of_sorted_keys.
      destruct (d !! year) as [v|] eqn:E; [eexists; reflexivity|].
      exfalso. apply Hnex. apply Exists_exists. exists year.
      split; [apply (proj2 (list_elem_of_In _ _)); exact Hin|exact E].
  - intros (year & Hy & Hnone).
    apply not_true_iff_false. intros Ht.
    destruct (proj1 (has_all_true d start_year end_year) Ht year Hy) as [v Hv].
    congruence.
Qed.

Lemma length_window d start_year :
  length (window d start_year (start_year + 14)) = 15%nat.
Proof.
  unfold window, py_range. rewrite length_map, length_seqZ. lia.
Qed.

Lemma nth_window d start_year i :
  (i < 15)%nat ->
  nth i (window d start_year (start_year + 14)) 0
  = default 0 (d !! (start_year + Z.of_nat i)%Z).
Proof.
  intros Hi. unfold window, py_range.
  apply nth_lookup_Some with (d := 0).
  rewrite list_lookup_fmap, lookup_seqZ_lt by lia. reflexivity.
Qed.

(** What one asset's entry of a window is: [None] exactly when the table has
    a gap in the span, otherwise the fifteen table values in year order. *)
Lemma asset_window d start_year :
  let entry := if has_all (sorted_keys d) start_year (start_year + 14)
               then Some (window d start_year (start_year + 14)) else None in
  (entry = None <->
   exists year, (start_year <= year <= start_year + 14)%Z /\ d !! year = None)
  /\ forall l, entry = Some l ->
       length l = 15%nat /\
       forall i, (i < 15)%nat ->
         d !! (start_year + Z.of_nat i)%Z = Some (nth i l 0).
Proof.
  cbv zeta. destruct (has_all _ _ _) eqn:E.
  - split.
    + split; [discriminate|]. intros Hgap.
      apply has_all_false in Hgap. congruence.
    + intros l [= <-]. split; [apply length_window|].
      intros i Hi. rewrite nth_window by exact Hi.
      destruct (proj1 (has_all_true _ _ _) E (start_year + Z.of_nat i)%Z
                  ltac:(lia)) as [v ->].
      reflexivity.
  - split; [|discriminate].
    split; [intros _; apply has_all_false; exact E|reflexivity].
Qed.

Lemma get_15_year_sequences_members mr seqs hs :
  get_15_year_sequences mr = Some seqs -> In hs seqs ->
  hs = make_sequence mr (sorted_keys (mr_SP500 mr))
         (sorted_keys (mr_NASDAQ100 mr)) (sorted_keys (mr_TBILL_3M mr))
         (start_year hs).
Proof.
  unfold get_15_year_sequences. intros H Hin.
  repeat match type of H with
         | context [mbind _ ?o] => destruct o; cbn [mbind option_bind] in H;
                                   [|discriminate H]
         end.
  injection H as <-.
  apply in_map_iff in Hin as (year & <- & _). reflexivity.
Qed.

(** X1.  In every window [get_15_year_sequences] returns, an asset's entry is
    [None] exactly when the table has no value for that asset in some year
    of the span start_year..start_year+14; otherwise it is the list of the
    fifteen table values of those years, in year order. *)
Theorem window_entries_are_the_table_values mr seqs hs :
  get_15_year_sequences mr = Some seqs -> In hs seqs ->
  end_year hs = (start_year hs + 14)%Z /\
  ((seq_SP500 hs = None <->
    exists year, (start_year hs <= year <= end_year hs)%Z /\
                 mr_SP500 mr !! year = None)
   /\ forall l, seq_SP500 hs = Some l ->
        length l = 15%nat /\
        forall i, (i < 15)%nat ->
          mr_SP500 mr !! (start_year hs + Z.of_nat i)%Z = Some (nth i l 0)) /\
  ((seq_NASDAQ100 hs = None <->
    exists year, (start_year hs <= year <= end_year hs)%Z /\
                 mr_NASDAQ100 mr !! year = None)
   /\ forall l, seq_NASDAQ100 hs = Some l ->
        length l = 15%nat /\
        forall i, (i < 15)%nat ->
          mr_NASDAQ100 mr !! (start_year hs + Z.of_nat i)%Z
          = Some (nth i l 0)) /\
  ((seq_TBILL_3M hs = None <->
    exists year, (start_year hs <= year <= end_year hs)%Z /\
                 mr_TBILL_3M mr !! year = None)
   /\ forall l, seq_TBILL_3M hs = Some l ->
        length l = 15%nat /\
        forall i, (i < 15)%nat ->
          mr_TBILL_3M mr !! (start_year hs + Z.of_nat i)%Z
          = Some (nth i l 0)).
Proof.
  intros Hrun Hin.
  rewrite (get_15_year_sequences_members mr seqs hs Hrun Hin).
  cbn [make_sequence start_year end_year seq_SP500 seq_NASDAQ100 seq_TBILL_3M].
  split; [reflexivity|].
  split; [apply asset_window|]. split; apply asset_window.
Qed.

(** X3.  Every window that passes the app's filter has three series of
    exactly fifteen annual returns: it is a window the engine accepts. *)
Theorem filtered_windows_are_complete mr seqs :
  get_15_year_sequences mr = Some seqs ->
  Forall complete15 (complete_sequences_of seqs).
Proof.
  intros Hrun. apply Forall_forall. intros hs Hin.
  apply (proj1 (list_elem_of_In _ _)) in Hin.
  unfold complete_sequences_of in Hin.
  apply filter_In in Hin as [Hin Hc].
  unfold is_complete in Hc.
  rewrite (get_15_year_sequences_members mr seqs hs Hrun Hin) in Hc |- *.
  unfold complete15.
  cbn [make_sequence seq_SP500 seq_NASDAQ100 seq_TBILL_3M] in Hc |- *.
  destruct (has_all (sorted_keys (mr_SP500 mr)) _ _); [|discriminate Hc].
  destruct (has_all (sorted_keys (mr_NASDAQ100 mr)) _ _); [|discriminate Hc].
  destruct (has_all (sorted_keys (mr_TBILL_3M mr)) _ _); [|discriminate Hc].
  eexists _, _, _. repeat split; apply length_window.
Qed.

(** ** HistoricalSequenceLibrary: which windows are generated *)

Lemma sorted_keys_nil (d : gmap Z Q) : sorted_keys d = [] <-> d = ∅.
Proof.
  unfold sorted_keys. rewrite <- (map_to_list_empty_iff d).
  rewrite <- Permutation_nil_r, merge_sort_Permutation, Permutation_nil_r.
  destruct (map_to_list d); cbn; split; congruence.
Qed.

Lemma sorted_keys_sorted (d : gmap Z Q) : StronglySorted Z.le (sorted_keys d).
Proof.
  apply StronglySorted_merge_sort.
  - intros x y z; lia.
  - intros x y; lia.
Qed.

Lemma head_sorted_keys (d : gmap Z Q) y :
  head (sorted_keys d) = Some y ->
  is_Some (d !! y) /\ forall year, is_Some (d !! year) -> (y <= year)%Z.
Proof.
  intros H. pose proof (sorted_keys_sorted d) as Hs.
  pose proof (elem_of_sorted_keys d) as Hk.
  destruct (sorted_keys d) as [|x l]; [discriminate H|].
  injection H as ->. split; [apply Hk; left|].
  intros year Hy. apply Hk, elem_of_cons in Hy as [->|Hin]; [lia|].
  apply StronglySorted_inv in Hs as [_ Hall].
  apply (proj1 (Forall_forall _ _) Hall year Hin).
Qed.

Lemma last_sorted_keys (d : gmap Z Q) y :
  last (sorted_keys d) = Some y ->
  is_Some (d !! y) /\ forall year, is_Some (d !! year) -> (year <= y)%Z.
Proof.
  intros H. pose proof (sorted_keys_sorted d) as Hs.
  pose proof (elem_of_sorted_keys d) as Hk.
  apply last_Some in H as [l' Hl]. rewrite Hl in Hs, Hk.
  split; [apply Hk, elem_of_app; right; left|].
  intros year Hy. apply Hk, elem_of_app in Hy as [Hin|Hin].
  - apply (StronglySorted_app_1_elem_of _ _ _ _ _ Hs Hin). left.
  - apply list_elem_of_singleton in Hin as ->. lia.
Qed.

(** X2.  [get_15_year_sequences] raises exactly when some asset of the table
    is empty.  Otherwise, with [earliest] and [latest] the first and the last
    year for which any asset has a value, it returns one window per start
    year earliest, earliest + 1, ..., latest - 15, in that order (none when
    latest - earliest < 15). *)
Theorem get_15_year_sequences_start_years mr :
  (get_15_year_sequences mr = None <->
   mr_SP500 mr = ∅ \/ mr_NASDAQ100 mr = ∅ \/ mr_TBILL_3M mr = ∅)
  /\ forall seqs, get_15_year_sequences mr = Some seqs ->
       exists earliest latest,
         has_data mr earliest /\ has_data mr latest /\
         (forall year, has_data mr year -> (earliest <= year <= latest)%Z) /\
         map start_year seqs = seqZ earliest (latest - 14 - earliest) /\
         length seqs = Z.to_nat (latest - 14 - earliest).
Proof.
  unfold get_15_year_sequences.
  pose proof (sorted_keys_nil (mr_SP500 mr)) as N1.
  pose proof (sorted_keys_nil (mr_NASDAQ100 mr)) as N2.
  pose proof (sorted_keys_nil (mr_TBILL_3M mr)) as N3.
  destruct (head (sorted_keys (mr_SP500 mr))) as [a1|] eqn:E1;
    [|apply head_None in E1; split;
      [split; [intros _; left; apply N1, E1|reflexivity]|discriminate]].
  destruct (head (sorted_keys (mr_NASDAQ100 mr))) as [a2|] eqn:E2;
    [|apply head_None in E2; split;
      [split; [intros _; right; left; apply N2, E2|reflexivity]|discriminate]].
  destruct (head (sorted_keys (mr_TBILL_3M mr))) as [a3|] eqn:E3;
    [|apply head_None in E3; split;
      [split; [intros _; right; right; apply N3, E3|reflexivity]|discriminate]].
  assert (M1 : sorted_keys (mr_SP500 mr) <> []) by (intros H; rewrite H in E1; discriminate).
  assert (M2 : sorted_keys (mr_NASDAQ100 mr) <> []) by (intros H; rewrite H in E2; discriminate).
  assert (M3 : sorted_keys (mr_TBILL_3M mr) <> []) by (intros H; rewrite H in E3; discriminate).
  destruct (proj2 (last_is_Some _) M1) as [b1 F1].
  destruct (proj2 (last_is_Some _) M2) as [b2 F2].
  destruct (proj2 (last_is_Some _) M3) as [b3 F3].
  rewrite F1, F2, F3. cbn [mbind option_bind].
  split.
  - split; [discriminate|].
    intros [H|[H|H]]; [apply N1 in H|apply N2 in H|apply N3 in H]; contradiction.
  - intros seqs [= <-].
    apply head_sorted_keys in E1 as [I1 L1], E2 as [I2 L2], E3 as [I3 L3].
    apply last_sorted_keys in F1 as [J1 U1], F2 as [J2 U2], F3 as [J3 U3].
    exists (Z.min (Z.min a1 a2) a3), (Z.max (Z.max b1 b2) b3).
    split; [|split; [|split; [|split]]].
    + unfold has_data.
      destruct (Z.min_spec (Z.min a1 a2) a3) as [[_ ->]|[_ ->]];
        [|right; right; exact I3].
      destruct (Z.min_spec a1 a2) as [[_ ->]|[_ ->]];
        [left; exact I1|right; left; exact I2].
    + unfold has_data.
      destruct (Z.max_spec (Z.max b1 b2) b3) as [[_ ->]|[_ ->]];
        [right; right; exact J3|].
      destruct (Z.max_spec b1 b2) as [[_ ->]|[_ ->]];
        [right; left; exact J2|left; exact J1].
    + intros year [H|[H|H]];
        [specialize (L1 year H); specialize (U1 year H)
        |specialize (L2 year H); specialize (U2 year H)
        |specialize (L3 year H); specialize (U3 year H)]; lia.
    + rewrite map_map. cbn [make_sequence start_year]. rewrite map_id.
      reflexivity.
    + rewrite length_map. unfold py_range. rewrite length_seqZ. reflexivity.
Qed.

(** ** ContributionSchedule: the lookup on any list *)

Lemma contribution_loop_member month periods acc :
  contribution_loop month periods acc = acc \/
  exists p, In p periods /\ contribution_loop month periods acc = contribution p.
Proof.
  revert acc. induction periods as [|q rest IH]; intros acc; [left; reflexivity|].
  cbn [contribution_loop].
  destruct (month >=? start_month q)%Z; [|left; reflexivity].
  right. destruct (IH (contribution q)) as [->|(p & Hin & ->)].
  - exists q. split; [left; reflexivity|reflexivity].
  - exists p. split; [right; exact Hin|reflexivity].
Qed.

Lemma contribution_loop_stops month l1 p l2 acc :
  (month < start_month p)%Z ->
  contribution_loop month (l1 ++ p :: l2) acc = contribution_loop month l1 acc.
Proof.
  intros Hlt. revert acc. induction l1 as [|q l1 IH]; intros acc.
  - cbn [app contribution_loop].
    destruct (Z.geb_spec month (start_month p)); [lia|reflexivity].
  - cbn [app contribution_loop].
    destruct (month >=? start_month q)%Z; [apply IH|reflexivity].
Qed.

(** X4.  On any list of periods, sorted or not: the lookup raises exactly on
    the empty list; the amount it returns is the amount of one of the listed
    periods; and the scan stops at the first period that starts after the
    month, so whatever follows that period has no effect on the result. *)
Theorem contribution_lookup_any_list month :
  (forall periods,
      get_contribution_for_month month periods = None <-> periods = [])
  /\ (forall periods c,
         get_contribution_for_month month periods = Some c ->
         exists p, In p periods /\ contribution p = c)
  /\ (forall earlier p later later',
         (month < start_month p)%Z ->
         get_contribution_for_month month (earlier ++ p :: later)
         = get_contribution_for_month month (earlier ++ p :: later')).
Proof.
  split; [|split].
  - intros [|first rest]; cbn; split; congruence.
  - intros [|first rest] c; [discriminate|]. intros [= <-].
    destruct (contribution_loop_member month (first :: rest) (contribution first))
      as [H|(p & Hin & H)].
    + exists first. split; [left; reflexivity|]. symmetry. exact H.
    + exists p. split; [exact Hin|]. symmetry. exact H.
  - intros earlier p later later' Hlt.
    destruct earlier as [|first earlier]; cbn [app get_contribution_for_month].
    + f_equal. cbn [contribution_loop].
      destruct (Z.geb_spec month (start_month p)); [lia|reflexivity].
    + f_equal.
      rewrite (contribution_loop_stops month (first :: earlier) p later _ Hlt).
      rewrite (contribution_loop_stops month (first :: earlier) p later' _ Hlt).
      reflexivity.
Qed.

End Engine.

(** * The theorems at concrete inputs *)

(** C2, counterexample.  An empty result set reaches the percentile and the
    mean: with a numpy whose reductions of an empty array are [nan] the
    aggregator returns a dict of [nan]s (the 0/0 of the percentage included),
    and with a numpy whose percentile of an empty array raises, what is raised
    is the percentile's own error.  No check for "no data" is made. *)
Lemma milestone_statistics_empty_counterexample :
  milestone_arrays empty_results (5 * 12) = Some ([], []) /\
  calculate_milestone_statistics percentile_nan mean_nan empty_results 5
  = Some {| p25 := NaN; p50 := NaN; p75 := NaN; avg_baseline := NaN;
            beat_baseline_pct := NaN; median_gain := NaN |} /\
  calculate_milestone_statistics percentile_raises mean_nan empty_results 5
  = (percentile_raises [] 25 ≫= fun _ => None).
Proof. repeat split. Qed.

(** C2 at a result set whose one run stops before year 5. *)
Lemma milestone_statistics_without_data_witness :
  calculate_milestone_statistics percentile_nan mean_nan example_results 5
  = Some {| p25 := NaN; p50 := NaN; p75 := NaN; avg_baseline := NaN;
            beat_baseline_pct := NaN; median_gain := NaN |}.
Proof.
  apply (milestone_statistics_without_data percentile_nan mean_nan
           example_results 5).
  repeat constructor. vm_compute. discriminate.
Defined.

Lemma example_window_complete : complete15 example_window.
Proof.
  eexists _, _, _. repeat split; vm_compute; reflexivity.
Qed.

(** C3 at the window 2000..2014, with 15%, 20% and 1% volatility. *)
Lemma engine_month_transition_witness :
  exists investment_breakdown g' ds,
    run_pair pow_linear nat counter_normal example_mix 1000 500 true
      (5 # 100) (fun _ => 100) (3 # 1000) (15 # 100) (20 # 100) (1 # 100)
      example_window 0%nat
    = Some (investment_breakdown, g') /\
    sample_years pow_linear nat counter_normal (15 # 100) (20 # 100) (1 # 100)
      example_window (seq 0 15) 0%nat
    = Some (ds, g') /\
    all_lengths 181 investment_breakdown /\
    forall m, (m < 180)%nat ->
      transition_holds example_mix true (5 # 100) (fun _ => 100) (3 # 1000)
        investment_breakdown m (month_returns ds m).
Proof.
  apply engine_month_transition;
    [exact example_window_complete|lra|lra|lra].
Defined.

(** C4, counterexample.  In binary64, at the month-3 checkpoint with
    threshold 0 and the 25/25/25/25 target, balances of 1 + 2^-52, 1, 1, 1
    give the S&P 500 fraction 0.25 + 2^-54: its deviation from the target is
    not zero, yet no computed adjustment is positive (the other three
    fractions are exactly 0.25), so no adjustment is triggered and the mix is
    left as it was. *)
Lemma zero_threshold_deviation_without_adjustment :
  let allocation := Block.current_allocation Binary64.near_target_balances in
  quarterly 3 /\
  Block.s_SP500 allocation = Binary64.above_quarter /\
  PrimFloat.eqb (Block.s_SP500 allocation)
                (Block.s_SP500 Binary64.quarter_target) = false /\
  Block.drift_exceeds Binary64.quarter_target allocation
    Binary64.threshold_zero /\
  Block.adjustment_triggered Binary64.quarter_target true
    Binary64.threshold_zero 3 Binary64.near_target_balances = false /\
  Block.quarterly_check Binary64.quarter_target true Binary64.threshold_zero 3
    Binary64.near_target_balances Binary64.quarter_target
  = Binary64.quarter_target.
Proof.
  cbv zeta. split; [split; [lia|reflexivity]|].
  split; [vm_compute; reflexivity|].
  split; [vm_compute; reflexivity|].
  split; [left; vm_compute; reflexivity|].
  split; vm_compute; reflexivity.
Qed.

(** C4 in binary64, at the month-3 checkpoint of balances 200, 200, 100,
    100 under the 25/25/25/25 target and the 5% threshold: the mix changes,
    so the drift exceeds the threshold, and the new mix is the renormalised
    half-step mix. *)
Lemma mix_reassigned_only_under_guards_witness :
  let new_mix :=
    Block.quarterly_check Binary64.quarter_target true
      Binary64.threshold_default 3 Binary64.equity_heavy_balances
      Binary64.quarter_target in
  Block.drift_exceeds Binary64.quarter_target
    (Block.current_allocation Binary64.equity_heavy_balances)
    Binary64.threshold_default /\
  new_mix
  = Block.renormalise
      (Block.adjusted_mix Binary64.quarter_target
         (Block.adjustments Binary64.quarter_target
            (Block.current_allocation Binary64.equity_heavy_balances))).
Proof.
  cbv zeta.
  destruct mix_reassigned_only_under_guards as [H _].
  destruct (H _ Binary64.ops Binary64.quarter_target true
              Binary64.threshold_default 3%Z Binary64.equity_heavy_balances
              Binary64.quarter_target) as (_ & Hchange & _ & Hnew).
  split.
  - apply Hchange. intros Heq.
    assert (E : PrimFloat.eqb
                  (Block.s_TBill
                     (Block.quarterly_check Binary64.quarter_target true
                        Binary64.threshold_default 3
                        Binary64.equity_heavy_balances
                        Binary64.quarter_target))
                  (Block.s_TBill Binary64.quarter_target) = false)
      by (vm_compute; reflexivity).
    rewrite Heq in E. vm_compute in E. discriminate E.
  - rewrite Hnew.
    replace (Block.adjustment_triggered Binary64.quarter_target true
               Binary64.threshold_default 3 Binary64.equity_heavy_balances)
      with true by (vm_compute; reflexivity).
    reflexivity.
Defined.



(** C6 at one complete window and two iterations. *)
Lemma zero_volatility_is_deterministic_witness :
  is_Some (run_investment_simulation pow_linear nat counter_normal
             example_mix 1000 500 [example_window] 2 (4 # 100) 0 0 0
             (fun _ => 100) true (5 # 100) 0%nat).
Proof.
  apply (zero_volatility_is_deterministic pow_linear nat counter_normal).
  - exact 0%nat.
  - constructor; [exact example_window_complete|constructor].
Defined.



Lemma mixed_results_well_formed : Forall well_formed (result_dict mixed_results).
Proof.
  repeat constructor; cbn; lia.
Qed.

(** C8 at two runs and a solver that accepts its starting point where the
    net present value is zero and gives up elsewhere: the batch returns, the
    first run's 5% is in the array, the second run adds nothing, and no
    Baseline IRR is found. *)
Lemma irr_failures_are_dropped_witness :
  exists d,
    calculate_all_irrs pow_linear newton_at_start mixed_results
      (fun _ => 0) (1 # 100) = Some d /\
    irr_returns d = [(5 # 100) * 100] /\ baseline_irr_returns d = [].
Proof.
  destruct (irr_failures_are_dropped pow_linear newton_at_start mixed_results
              (fun _ => 0) (1 # 100) mixed_results_well_formed)
    as (_ & d & Hrun & Hp & Hb & _).
  - intros H. vm_compute in H. discriminate H.
  - exists d. split; [exact Hrun|]. rewrite Hp, Hb.
    split; vm_compute; reflexivity.
Defined.

(** C9 at month 25 of a three-period schedule. *)
Lemma contribution_lookup_sorted_witness :
  get_contribution_for_month 25 example_periods = Some 4000.
Proof.
  destruct (contribution_lookup_sorted 25
              {| contribution := 3200; start_month := 0 |}
              [ {| contribution := 4000; start_month := 20 |};
                {| contribution := 1000; start_month := 40 |} ])
    as (H & _).
  - repeat constructor; unfold by_start; cbn; lia.
  - exact H.
Defined.
